(** * Campaign dispatch: audience building and the background send loop

    A shallow embedding of [src/backend/app/routes/campaigns.py]
    ([send_campaign] and [process_campaign_emails]) and the properties of
    its audience builder and dispatch executor.

    The handlers are [async] functions that await one collaborator at a
    time; they are embedded as computations in a state-and-exception monad
    over a [world] that records every effect the code has on its
    collaborators, in the order in which it happens. *)

From Stdlib Require Import ZArith Lia.
From stdpp Require Import base option list gmap strings.

Open Scope string_scope.
Open Scope list_scope.

(** ** Data model *)

(** Prospects, templates and providers are plain Python dicts. *)
Abbreviation dict := (gmap string string).

(** The exceptions ([Exception] instances) that can reach the code. *)
Inductive exn : Type :=
| KeyError (key : string)
| HTTPException (status_code : nat) (detail : string)
| Error (message : string).

Inductive result (A : Type) : Type :=
| Ok (a : A)
| Raise (e : exn).
Arguments Ok {A} a.
Arguments Raise {A} e.

(** The fields of a stored campaign that [send_campaign] reads.  [None]
    stands for a key that the document does not have.  A stored campaign
    has at least its [id], so [if not campaign] fires only when there is
    none. *)
Record Campaign : Type := {
  template_id : option string;
  list_ids : option (list string);
  max_emails : option Z
}.

(** [app.models.EmailMessage], the outcome record of one send. *)
Record EmailMessage : Type := {
  em_id : nat;
  em_prospect_id : string;
  em_campaign_id : string;
  em_subject : string;
  em_content : string;
  em_status : string;
  em_sent_at : option nat
}.

(** What [send_email] hands back: [(success, error)], or an exception. *)
Abbreviation send_result := (result (bool * option string)).

(** Effects on the collaborators, one constructor per call that the two
    handlers make.  Writes to the store appear when they have succeeded; a
    send appears with what it gave back. *)
Inductive event : Type :=
| UpdateCampaign (campaign_id status : string) (prospect_count : option nat)
| SendEmail (provider_id to subject content : string) (res : send_result)
| CreateEmailRecord (email_record : EmailMessage)
| UpdateProspectLastContact (prospect_id : string) (at_time : nat).

(** The lines written by [print]. *)
Inductive log_line : Type :=
| NoDefaultProvider (campaign_id : string)
| EmailSendingFailed (email error : string)
| ErrorSendingEmail (email : string) (e : exn)
| CampaignCompleted (campaign_id : string) (sent_count failed_count : nat).

(** The arguments of a scheduled [process_campaign_emails] call. *)
Abbreviation task := (string * list dict * dict)%type.

Record world : Type := {
  trace : list event;             (* oldest first *)
  stdout : list log_line;         (* oldest first *)
  clock : nat;                    (* datetime.utcnow() *)
  next_id : nat;                  (* generate_id() *)
  background_tasks : list task    (* BackgroundTasks, in add_task order *)
}.

(** ** The monad of the handlers *)

(** A computation over a state [S] that returns or raises; what it did to
    the state before raising stays done, as in Python. *)
Definition M (S A : Type) : Type := S -> result A * S.

Definition ret {S A} (a : A) : M S A := fun s => (Ok a, s).

Definition raise {S A} (e : exn) : M S A := fun s => (Raise e, s).

Definition bind {S A B} (m : M S A) (k : A -> M S B) : M S B :=
  fun s =>
    match m s with
    | (Ok a, s') => k a s'
    | (Raise e, s') => (Raise e, s')
    end.

(** [try: body except Exception as e: handler e] *)
Definition try_except {S A} (body : M S A) (handler : exn -> M S A) : M S A :=
  fun s =>
    match body s with
    | (Ok a, s') => (Ok a, s')
    | (Raise e, s') => handler e s'
    end.

Definition lift {S A} (r : result A) : M S A := fun s => (r, s).

(** A function with local variables [F] runs its effects on the world
    through [io] and its assignments through [assign]; [call] enters the
    function with the initial values of its locals. *)
Definition io {F A} (m : M world A) : M (F * world) A :=
  fun s => let '(r, w') := m (snd s) in (r, (fst s, w')).

Definition assign {F} (g : F -> F) : M (F * world) unit :=
  fun s => (Ok tt, (g (fst s), snd s)).

Definition locals {F} : M (F * world) F := fun s => (Ok (fst s), s).

Definition call {F A} (init : F) (m : M (F * world) A) : M world A :=
  fun w => let '(r, s') := m (init, w) in (r, snd s').

Notation "x <- m ;; k" := (bind m (fun x => k))
  (at level 100, m at next level, right associativity).
Notation "m ;;; k" := (bind m (fun _ => k))
  (at level 100, right associativity).

(** ** Python primitives *)

(** [d[key]] *)
Definition getitem (d : dict) (key : string) : result string :=
  match d !! key with
  | Some v => Ok v
  | None => Raise (KeyError key)
  end.

(** Truth value of an optional dict: [None] and the empty dict are falsy.
    [truthy d] is the dict when [if not d] does not fire. *)
Definition truthy (d : option dict) : option dict :=
  match d with
  | None => None
  | Some d => if bool_decide (d = ∅) then None else Some d
  end.

(** Truth value of an optional string: [None] and the empty string are
    falsy. *)
Definition truthy_str (s : option string) : option string :=
  match s with
  | None => None
  | Some s => if bool_decide (s = EmptyString) then None else Some s
  end.

(** [l[:stop]] *)
Definition slice_to {A} (l : list A) (stop : Z) : list A :=
  if (0 <=? stop)%Z then take (Z.to_nat stop) l
  else take (length l - Z.to_nat (- stop)) l.

Definition emit (e : event) : M world unit :=
  fun w => (Ok tt, {| trace := trace w ++ [e]; stdout := stdout w;
                      clock := clock w; next_id := next_id w;
                      background_tasks := background_tasks w |}).

Definition print (l : log_line) : M world unit :=
  fun w => (Ok tt, {| trace := trace w; stdout := stdout w ++ [l];
                      clock := clock w; next_id := next_id w;
                      background_tasks := background_tasks w |}).

(** [datetime.utcnow()] *)
Definition utcnow : M world nat := fun w => (Ok (clock w), w).

(** [await asyncio.sleep(0.1)]: time passes. *)
Definition asyncio_sleep : M world unit :=
  fun w => (Ok tt, {| trace := trace w; stdout := stdout w;
                      clock := S (clock w); next_id := next_id w;
                      background_tasks := background_tasks w |}).

(** [generate_id()]: a fresh identifier. *)
Definition generate_id : M world nat :=
  fun w => (Ok (next_id w),
            {| trace := trace w; stdout := stdout w; clock := clock w;
               next_id := S (next_id w);
               background_tasks := background_tasks w |}).

(** [background_tasks.add_task(process_campaign_emails, ...)] *)
Definition add_task (t : task) : M world unit :=
  fun w => (Ok tt, {| trace := trace w; stdout := stdout w;
                      clock := clock w; next_id := next_id w;
                      background_tasks := background_tasks w ++ [t] |}).

(** The world seen with a fresh, empty [BackgroundTasks]. *)
Definition no_tasks (w : world) : world :=
  {| trace := trace w; stdout := stdout w; clock := clock w;
     next_id := next_id w; background_tasks := [] |}.

(** ** Audience building ([send_campaign], lines 46-62) *)

(** [# Remove duplicates]: the loop over [prospects], with its two
    accumulators. *)
Fixpoint remove_duplicates_loop (prospects : list dict)
    (seen_emails : gset string) (unique_prospects : list dict)
    : result (list dict) :=
  match prospects with
  | [] => Ok unique_prospects
  | prospect :: rest =>
      match getitem prospect "email" with
      | Raise e => Raise e
      | Ok email =>
          if decide (email ∉ seen_emails)
          then remove_duplicates_loop rest ({[email]} ∪ seen_emails)
                 (unique_prospects ++ [prospect])
          else remove_duplicates_loop rest seen_emails unique_prospects
      end
  end.

Definition remove_duplicates (prospects : list dict) : result (list dict) :=
  remove_duplicates_loop prospects ∅ [].

(** [# Limit to max_emails]: [campaign.get("max_emails", 100)], then the
    slice. *)
Definition limit_to_max_emails (campaign : Campaign)
    (unique_prospects : list dict) : list dict :=
  slice_to unique_prospects (default 100%Z (max_emails campaign)).

(** ** Collaborators *)

(** [app.services.database.db_service], as far as the two handlers use
    it.  The reads give what the store holds when the campaign is
    triggered; for the two writes that can fail the field gives the
    exception that the call raises, if any. *)
Record DbService : Type := {
  get_campaign_by_id : string -> option Campaign;
  get_template_by_id : string -> option dict;
  get_prospects_by_list_id : string -> result (list dict);
  create_email_record : EmailMessage -> option exn;
  update_prospect_last_contact : string -> nat -> option exn
}.

(** [app.services.email_provider_service.email_provider_service]. *)
Record EmailProviderService : Type := {
  get_default_provider : option dict;
  send_email : string -> string -> string -> string -> send_result
}.

(** The three local names of [send_campaign]'s answer that carry data. *)
Record SendResponse : Type := {
  resp_campaign_id : string;
  resp_status : string;
  resp_total_prospects : nat
}.

(** The local variables of [process_campaign_emails] that are assigned
    inside the loop. *)
Record Counters : Type := {
  sent_count : nat;
  failed_count : nat
}.

Definition incr_sent (c : Counters) : Counters :=
  {| sent_count := S (sent_count c); failed_count := failed_count c |}.

Definition incr_failed (c : Counters) : Counters :=
  {| sent_count := sent_count c; failed_count := S (failed_count c) |}.

Section Handlers.

Variable db_service : DbService.
Variable email_provider_service : EmailProviderService.
(** [app.utils.helpers.personalize_template] *)
Variable personalize_template : string -> dict -> result string.

(** Modelled from the spec: [updateCampaign(campaignId, fields) -> void],
    of the storage collaborator, which is not part of the sources. *)
Definition db_update_campaign (campaign_id status : string)
    (prospect_count : option nat) : M world unit :=
  emit (UpdateCampaign campaign_id status prospect_count).

(** Modelled from the spec: [createOutcomeRecord(record) -> void], which
    stores the record or fails with a persistence error. *)
Definition db_create_email_record (email_record : EmailMessage)
    : M world unit :=
  match create_email_record db_service email_record with
  | Some e => raise e
  | None => emit (CreateEmailRecord email_record)
  end.

(** Modelled from the spec:
    [updateRecipientLastContact(recipientId, timestamp) -> void], which
    stores the timestamp or fails with a persistence error. *)
Definition db_update_prospect_last_contact (prospect_id : string)
    (now : nat) : M world unit :=
  match update_prospect_last_contact db_service prospect_id now with
  | Some e => raise e
  | None => emit (UpdateProspectLastContact prospect_id now)
  end.

(** Modelled from the spec:
    [send(provider, toAddress, subject, body) -> (success, error)]; every
    attempt is an effect, whatever it gives back. *)
Definition provider_send_email (provider_id to subject content : string)
    : M world (bool * option string) :=
  let res := send_email email_provider_service provider_id to subject content in
  emit (SendEmail provider_id to subject content res) ;;; lift res.

(** *** [send_campaign] *)

(** [# Get prospects from campaign lists] *)
Fixpoint get_prospects_from_lists (ids : list string)
    (prospects : list dict) : result (list dict) :=
  match ids with
  | [] => Ok prospects
  | list_id :: rest =>
      match get_prospects_by_list_id db_service list_id with
      | Raise e => Raise e
      | Ok list_prospects =>
          get_prospects_from_lists rest (prospects ++ list_prospects)
      end
  end.

Definition send_campaign (campaign_id : string) : M world SendResponse :=
  match get_campaign_by_id db_service campaign_id with
  | None => raise (HTTPException 404 "Campaign not found")
  | Some campaign =>
      match template_id campaign with
      | None => raise (KeyError "template_id")
      | Some tid =>
          match truthy (get_template_by_id db_service tid) with
          | None => raise (HTTPException 404 "Template not found")
          | Some template =>
              prospects <- lift (get_prospects_from_lists
                                   (default [] (list_ids campaign)) []) ;;
              unique_prospects <- lift (remove_duplicates prospects) ;;
              let prospects := limit_to_max_emails campaign unique_prospects in
              add_task (campaign_id, prospects, template) ;;;
              db_update_campaign campaign_id "active"
                (Some (length prospects)) ;;;
              ret {| resp_campaign_id := campaign_id;
                     resp_status := "active";
                     resp_total_prospects := length prospects |}
          end
      end
  end.

(** *** [process_campaign_emails] *)

(** The body of the [try] block, lines 93-130. *)
Definition try_body (campaign_id : string) (default_provider template
    prospect : dict) : M (Counters * world) unit :=
  content_pattern <- lift (getitem template "content") ;;
  personalized_content <- lift (personalize_template content_pattern prospect) ;;
  subject_pattern <- lift (getitem template "subject") ;;
  personalized_subject <- lift (personalize_template subject_pattern prospect) ;;
  provider_id <- lift (getitem default_provider "id") ;;
  email <- lift (getitem prospect "email") ;;
  sent <- io (provider_send_email provider_id email
                personalized_subject personalized_content) ;;
  let success := fst sent in
  (if success then ret tt
   else match truthy_str (snd sent) with
        | Some error => io (print (EmailSendingFailed email error))
        | None => ret tt
        end) ;;;
  id <- io generate_id ;;
  prospect_id <- lift (getitem prospect "id") ;;
  sent_at <- (if success then (now <- io utcnow ;; ret (Some now))
              else ret None) ;;
  io (db_create_email_record
        {| em_id := id;
           em_prospect_id := prospect_id;
           em_campaign_id := campaign_id;
           em_subject := personalized_subject;
           em_content := personalized_content;
           em_status := if success then "sent" else "failed";
           em_sent_at := sent_at |}) ;;;
  (if success then assign incr_sent else assign incr_failed) ;;;
  prospect_id <- lift (getitem prospect "id") ;;
  now <- io utcnow ;;
  io (db_update_prospect_last_contact prospect_id now) ;;;
  io asyncio_sleep.

(** The [except Exception as e] block, lines 133-135. *)
Definition except_body (prospect : dict) (e : exn)
    : M (Counters * world) unit :=
  email <- lift (getitem prospect "email") ;;
  io (print (ErrorSendingEmail email e)) ;;;
  assign incr_failed.

(** [for prospect in prospects], lines 91-135. *)
Fixpoint for_prospects (campaign_id : string) (default_provider template
    : dict) (prospects : list dict) : M (Counters * world) unit :=
  match prospects with
  | [] => ret tt
  | prospect :: rest =>
      try_except
        (try_body campaign_id default_provider template prospect)
        (except_body prospect) ;;;
      for_prospects campaign_id default_provider template rest
  end.

Definition process_campaign_emails (campaign_id : string)
    (prospects : list dict) (template : dict) : M world unit :=
  call {| sent_count := 0; failed_count := 0 |}
    (match truthy (get_default_provider email_provider_service) with
     | None => io (print (NoDefaultProvider campaign_id))
     | Some default_provider =>
         for_prospects campaign_id default_provider template prospects ;;;
         io (db_update_campaign campaign_id "completed" None) ;;;
         c <- locals ;;
         io (print (CampaignCompleted campaign_id
                      (sent_count c) (failed_count c)))
     end).

(** *** The request, with its background tasks *)

Fixpoint run_tasks (tasks : list task) : M world unit :=
  match tasks with
  | [] => ret tt
  | (campaign_id, prospects, template) :: rest =>
      process_campaign_emails campaign_id prospects template ;;;
      run_tasks rest
  end.

(** Modelled from the spec: the dispatch run is a single detached
    background task that starts after the triggering call has returned
    (the trigger gets a fresh [BackgroundTasks] and the tasks added to it
    run, in order, once the response is out). *)
Definition post_campaign_send (campaign_id : string)
    : M world SendResponse :=
  fun w =>
    match send_campaign campaign_id (no_tasks w) with
    | (Raise e, w') => (Raise e, w')
    | (Ok response, w') =>
        match run_tasks (background_tasks w') (no_tasks w') with
        | (Raise e, w'') => (Raise e, w'')
        | (Ok _, w'') => (Ok response, w'')
        end
    end.

End Handlers.

(** ** What a run leaves behind *)

(** The outcome records created by a stretch of events, oldest first. *)
Definition email_records (evs : list event) : list EmailMessage :=
  omap (fun e => match e with
                 | CreateEmailRecord r => Some r
                 | _ => None
                 end) evs.

(** The prospects whose last-contact timestamp was written. *)
Definition last_contact_updates (evs : list event) : list string :=
  omap (fun e => match e with
                 | UpdateProspectLastContact prospect_id _ => Some prospect_id
                 | _ => None
                 end) evs.

(** The addresses of the send attempts. *)
Definition send_attempts (evs : list event) : list string :=
  omap (fun e => match e with
                 | SendEmail _ to _ _ _ => Some to
                 | _ => None
                 end) evs.

(** The status (and count) writes on campaigns. *)
Definition campaign_writes (evs : list event)
    : list (string * string * option nat) :=
  omap (fun e => match e with
                 | UpdateCampaign campaign_id status n =>
                     Some (campaign_id, status, n)
                 | _ => None
                 end) evs.

(** The addresses for which the [except] block logged an error. *)
Definition logged_errors (out : list log_line) : list string :=
  omap (fun l => match l with
                 | ErrorSendingEmail email _ => Some email
                 | _ => None
                 end) out.

(** The send attempts with all their arguments and what they gave. *)
Definition send_calls (evs : list event)
    : list (string * string * string * string * send_result) :=
  omap (fun e => match e with
                 | SendEmail provider_id to subject content res =>
                     Some (provider_id, to, subject, content, res)
                 | _ => None
                 end) evs.

(** The outcome records of a stretch of events that carry [status]. *)
Definition records_with_status (status : string) (evs : list event)
    : list EmailMessage :=
  filter (fun r => em_status r = status) (email_records evs).

(** The counters of the closing [print], when the run got there. *)
Definition reported_counters (out : list log_line) : list (nat * nat) :=
  omap (fun l => match l with
                 | CampaignCompleted _ sent failed => Some (sent, failed)
                 | _ => None
                 end) out.

Definition has_key (key : string) (d : dict) : Prop := is_Some (d !! key).

(** [q] is the first prospect of [l] that carries its email address. *)
Definition first_with_its_email (l : list dict) (q : dict) : Prop :=
  exists l1 l2 : list dict, l = (l1 ++ q :: l2)%list /\
    forall p, p ∈ l1 -> p !! "email" <> q !! "email".

(** The email addresses of a list of prospects ([None]: no such key). *)
Definition emails (l : list dict) : list (option string) :=
  (fun p : dict => p !! "email") <$> l.

(** ** Concrete data for the scenarios *)

Definition prospect_of (id email : string) : dict :=
  <["id" := id]> (<["email" := email]> ∅).

Definition welcome_template : dict :=
  <["subject" := "Hello"]> (<["content" := "Welcome"]> ∅).

Definition smtp_provider : dict := <["id" := "smtp"]> ∅.

Definition empty_world : world :=
  {| trace := []; stdout := []; clock := 0; next_id := 0;
     background_tasks := [] |}.

Definition list_A : list dict :=
  [prospect_of "1" "a@x"; prospect_of "2" "b@x"].

Definition list_B : list dict :=
  [prospect_of "3" "b@x"; prospect_of "4" "c@x"].

(** A campaign over the lists A and B with the given [max_emails]. *)
Definition campaign_AB (cap : option Z) : Campaign :=
  {| template_id := Some "t1"; list_ids := Some ["A"; "B"];
     max_emails := cap |}.

(** A store that holds one campaign ["c1"], its template and the two
    lists, and whose writes behave as the two last arguments say. *)
Definition store (cap : option Z)
    (record_error : EmailMessage -> option exn)
    (contact_error : string -> nat -> option exn) : DbService :=
  {| get_campaign_by_id := fun campaign_id =>
       if bool_decide (campaign_id = "c1") then Some (campaign_AB cap)
       else None;
     get_template_by_id := fun tid =>
       if bool_decide (tid = "t1") then Some welcome_template else None;
     get_prospects_by_list_id := fun list_id =>
       if bool_decide (list_id = "A") then Ok list_A
       else if bool_decide (list_id = "B") then Ok list_B
       else Ok [];
     create_email_record := record_error;
     update_prospect_last_contact := contact_error |}.

Definition healthy_store (cap : option Z) : DbService :=
  store cap (fun _ => None) (fun _ _ => None).

(** The same store, except that fetching the list [bad] fails. *)
Definition store_with_failing_list (bad : string) : DbService :=
  {| get_campaign_by_id := get_campaign_by_id (healthy_store None);
     get_template_by_id := get_template_by_id (healthy_store None);
     get_prospects_by_list_id := fun list_id =>
       if bool_decide (list_id = bad) then Raise (Error "list unavailable")
       else get_prospects_by_list_id (healthy_store None) list_id;
     create_email_record := fun _ => None;
     update_prospect_last_contact := fun _ _ => None |}.

(** A provider service with the given default provider and transport. *)
Definition provider_service (default_provider : option dict)
    (transport : string -> send_result) : EmailProviderService :=
  {| get_default_provider := default_provider;
     send_email := fun _ to _ _ => transport to |}.

Definition delivers (to : string) : send_result := Ok (true, None).

Definition transport_down (to : string) : send_result :=
  Raise (Error "connection refused").

(** A transport that reports a failure for one address and delivers to
    the others. *)
Definition smtp_timeout_for (address to : string) : send_result :=
  if bool_decide (to = address) then Ok (false, Some "SMTP timeout")
  else Ok (true, None).

Definition three_recipients : list dict :=
  [prospect_of "1" "a@x"; prospect_of "2" "b@x"; prospect_of "3" "c@x"].

(** Rendering that leaves the pattern as it is. *)
Definition verbatim (pattern : string) (context : dict) : result string :=
  Ok pattern.

(** ** One iteration of the loop, case by case *)

(** What lines 93-102 compute before the send is awaited: the arguments
    of [send_email], or the exception that rendering or a missing key
    raises. *)
Definition send_arguments (personalize_template : string -> dict -> result string)
    (default_provider template prospect : dict)
    : result (string * string * string * string) :=
  match getitem template "content" with
  | Raise e => Raise e
  | Ok content_pattern =>
  match personalize_template content_pattern prospect with
  | Raise e => Raise e
  | Ok content =>
  match getitem template "subject" with
  | Raise e => Raise e
  | Ok subject_pattern =>
  match personalize_template subject_pattern prospect with
  | Raise e => Raise e
  | Ok subject =>
  match getitem default_provider "id" with
  | Raise e => Raise e
  | Ok provider_id =>
  match getitem prospect "email" with
  | Raise e => Raise e
  | Ok email => Ok (provider_id, email, subject, content)
  end end end end end end.

(** The record that lines 109-117 build. *)
Definition outcome_record (campaign_id prospect_id subject content : string)
    (success : bool) (id now : nat) : EmailMessage :=
  {| em_id := id;
     em_prospect_id := prospect_id;
     em_campaign_id := campaign_id;
     em_subject := subject;
     em_content := content;
     em_status := if success then "sent" else "failed";
     em_sent_at := if success then Some now else None |}.

(** The line that [if not success and error] prints, if any. *)
Definition failure_notice (email : string) (success : bool)
    (error : option string) : list log_line :=
  if success then []
  else match truthy_str error with
       | Some error => [EmailSendingFailed email error]
       | None => []
       end.

Definition count (success : bool) (c : Counters) : Counters :=
  if success then incr_sent c else incr_failed c.

(** The five ways in which one pass through the loop body ends, with the
    counters, the events and the lines it leaves.  [email] is the address
    of the prospect, which the [except] block prints. *)
Inductive iteration_outcome (db_service : DbService)
    (email_provider_service : EmailProviderService)
    (personalize_template : string -> dict -> result string)
    (campaign_id : string) (default_provider template prospect : dict)
    (email : string) (c : Counters)
    : Counters -> list event -> list log_line -> Prop :=
| caught_before_send (e : exn) :
    send_arguments personalize_template default_provider template prospect
      = Raise e ->
    iteration_outcome db_service email_provider_service personalize_template
      campaign_id default_provider template prospect email c
      (incr_failed c) [] [ErrorSendingEmail email e]
| caught_in_send (provider_id subject content : string) (e : exn) :
    send_arguments personalize_template default_provider template prospect
      = Ok (provider_id, email, subject, content) ->
    send_email email_provider_service provider_id email subject content
      = Raise e ->
    iteration_outcome db_service email_provider_service personalize_template
      campaign_id default_provider template prospect email c
      (incr_failed c)
      [SendEmail provider_id email subject content (Raise e)]
      [ErrorSendingEmail email e]
| caught_before_record (provider_id subject content : string)
    (success : bool) (error : option string) (id now : nat) (e : exn) :
    send_arguments personalize_template default_provider template prospect
      = Ok (provider_id, email, subject, content) ->
    send_email email_provider_service provider_id email subject content
      = Ok (success, error) ->
    (prospect !! "id" = None /\ e = KeyError "id" \/
     exists prospect_id, prospect !! "id" = Some prospect_id /\
       create_email_record db_service
         (outcome_record campaign_id prospect_id subject content success
            id now) = Some e) ->
    iteration_outcome db_service email_provider_service personalize_template
      campaign_id default_provider template prospect email c
      (incr_failed c)
      [SendEmail provider_id email subject content (Ok (success, error))]
      (failure_notice email success error ++ [ErrorSendingEmail email e])
| caught_after_record (provider_id subject content : string)
    (success : bool) (error : option string) (prospect_id : string)
    (id now : nat) (e : exn) :
    send_arguments personalize_template default_provider template prospect
      = Ok (provider_id, email, subject, content) ->
    send_email email_provider_service provider_id email subject content
      = Ok (success, error) ->
    prospect !! "id" = Some prospect_id ->
    create_email_record db_service
      (outcome_record campaign_id prospect_id subject content success id now)
      = None ->
    update_prospect_last_contact db_service prospect_id now = Some e ->
    iteration_outcome db_service email_provider_service personalize_template
      campaign_id default_provider template prospect email c
      (incr_failed (count success c))
      [SendEmail provider_id email subject content (Ok (success, error));
       CreateEmailRecord
         (outcome_record campaign_id prospect_id subject content success
            id now)]
      (failure_notice email success error ++ [ErrorSendingEmail email e])
| completed (provider_id subject content : string)
    (success : bool) (error : option string) (prospect_id : string)
    (id now : nat) :
    send_arguments personalize_template default_provider template prospect
      = Ok (provider_id, email, subject, content) ->
    send_email email_provider_service provider_id email subject content
      = Ok (success, error) ->
    prospect !! "id" = Some prospect_id ->
    create_email_record db_service
      (outcome_record campaign_id prospect_id subject content success id now)
      = None ->
    update_prospect_last_contact db_service prospect_id now = None ->
    iteration_outcome db_service email_provider_service personalize_template
      campaign_id default_provider template prospect email c
      (count success c)
      [SendEmail provider_id email subject content (Ok (success, error));
       CreateEmailRecord
         (outcome_record campaign_id prospect_id subject content success
            id now);
       UpdateProspectLastContact prospect_id now]
      (failure_notice email success error).

(** The loop as a chain of iterations. *)
Inductive loop_outcome (db_service : DbService)
    (email_provider_service : EmailProviderService)
    (personalize_template : string -> dict -> result string)
    (campaign_id : string) (default_provider template : dict)
    : list dict -> Counters -> Counters -> list event -> list log_line
      -> Prop :=
| loop_done (c : Counters) :
    loop_outcome db_service email_provider_service personalize_template
      campaign_id default_provider template [] c c [] []
| loop_next (prospect : dict) (rest : list dict) (email : string)
    (c c1 c2 : Counters) (evs1 evs2 : list event)
    (out1 out2 : list log_line) :
    prospect !! "email" = Some email ->
    iteration_outcome db_service email_provider_service personalize_template
      campaign_id default_provider template prospect email c c1 evs1 out1 ->
    loop_outcome db_service email_provider_service personalize_template
      campaign_id default_provider template rest c1 c2 evs2 out2 ->
    loop_outcome db_service email_provider_service personalize_template
      campaign_id default_provider template (prospect :: rest) c c2
      (evs1 ++ evs2) (out1 ++ out2).

(** Rendering, the send and the storing of the record raise nothing for
    [prospect]: the send gives back a result, whatever it says. *)
Definition records_without_exception (db_service : DbService)
    (email_provider_service : EmailProviderService)
    (personalize_template : string -> dict -> result string)
    (default_provider template prospect : dict) : Prop :=
  exists provider_id email subject content sent prospect_id,
    send_arguments personalize_template default_provider template prospect
      = Ok (provider_id, email, subject, content) /\
    send_email email_provider_service provider_id email subject content
      = Ok sent /\
    prospect !! "id" = Some prospect_id /\
    forall r, em_prospect_id r = prospect_id ->
      create_email_record db_service r = None.

(** Nor does the update of the last-contact timestamp. *)
Definition contacts_without_exception (db_service : DbService)
    (email_provider_service : EmailProviderService)
    (personalize_template : string -> dict -> result string)
    (default_provider template prospect : dict) : Prop :=
  records_without_exception db_service email_provider_service
    personalize_template default_provider template prospect /\
  forall prospect_id now, prospect !! "id" = Some prospect_id ->
    update_prospect_last_contact db_service prospect_id now = None.



(** * Properties *)

(** ** The audience builder *)

Lemma has_key_lookup (key : string) (d : dict) :
  has_key key d -> exists v, d !! key = Some v.
Proof. intros [v Hv]. by exists v. Qed.

Lemma getitem_Some (d : dict) (key v : string) :
  d !! key = Some v -> getitem d key = Ok v.
Proof. intros H. unfold getitem. by rewrite H. Qed.

(** The loop appends to [unique_prospects] the prospects of [l] whose
    address is neither in [seen_emails] nor carried by an earlier prospect
    of [l]. *)
Lemma remove_duplicates_loop_spec (l : list dict) :
  Forall (has_key "email") l ->
  forall (seen : gset string) (acc : list dict),
  exists u : list dict,
    remove_duplicates_loop l seen acc = Ok (acc ++ u) /\
    u `sublist_of` l /\
    NoDup (emails u) /\
    (forall q email, q ∈ u -> q !! "email" = Some email -> email ∉ seen) /\
    (forall p email, p ∈ l -> p !! "email" = Some email ->
       email ∈ seen \/ exists q, q ∈ u /\ q !! "email" = Some email) /\
    (forall q, q ∈ u -> first_with_its_email l q).
Proof.
  induction 1 as [|p rest Hp Hrest IH]; intros seen acc.
  - exists []. rewrite app_nil_r. simpl.
    split; [done|]. split; [done|]. split; [constructor|].
    split; [|split].
    + intros q email Hq. by apply elem_of_nil in Hq.
    + intros p email Hp. by apply elem_of_nil in Hp.
    + intros q Hq. by apply elem_of_nil in Hq.
  - destruct (has_key_lookup _ _ Hp) as [e He].
    simpl. rewrite (getitem_Some _ _ _ He).
    destruct (decide (e ∉ seen)) as [Hnew|Hold].
    + destruct (IH ({[e]} ∪ seen) (acc ++ [p]))
        as (u & Hrun & Hsub & Hnd & Hfresh & Hcover & Hfirst).
      exists (p :: u). rewrite Hrun, <- app_assoc. simpl.
      split; [done|]. split; [by apply sublist_skip|].
      split.
      { unfold emails in *. simpl. apply NoDup_cons. split; [|done].
        intros Hin. apply list_elem_of_fmap in Hin as (q & Hq & Hqu).
        apply (Hfresh q e Hqu); [congruence | set_solver]. }
      split.
      { intros q email Hq Hqe. apply elem_of_cons in Hq as [->|Hq].
        - congruence.
        - specialize (Hfresh q email Hq Hqe). set_solver. }
      split.
      { intros p' email Hp' Hpe. apply elem_of_cons in Hp' as [->|Hp'].
        - right. exists p. split; [apply elem_of_cons; by left | done].
        - destruct (Hcover p' email Hp' Hpe) as [Hin|(q & Hq & Hqe)].
          + apply elem_of_union in Hin as [Hin|Hin].
            * apply elem_of_singleton in Hin as ->. right. exists p.
              split; [apply elem_of_cons; by left | done].
            * by left.
          + right. exists q. split; [apply elem_of_cons; by right | done]. }
      intros q Hq. apply elem_of_cons in Hq as [->|Hq].
      * exists [], rest. split; [done|]. intros p' Hp'.
        by apply elem_of_nil in Hp'.
      * destruct (Hfirst q Hq) as (l1 & l2 & -> & Hl1).
        exists (p :: l1), l2. split; [done|].
        intros p' Hp'. apply elem_of_cons in Hp' as [->|Hp']; [|by apply Hl1].
        intros Heq. rewrite He in Heq. symmetry in Heq.
        specialize (Hfresh q e Hq Heq). set_solver.
    + destruct (IH seen acc)
        as (u & Hrun & Hsub & Hnd & Hfresh & Hcover & Hfirst).
      exists u. split; [done|]. split; [by apply sublist_cons|].
      split; [done|]. split; [done|]. split.
      { intros p' email Hp' Hpe. apply elem_of_cons in Hp' as [->|Hp'].
        - left. rewrite He in Hpe. injection Hpe as <-.
          destruct (decide (e ∈ seen)); [done | by destruct Hold].
        - by apply (Hcover p'). }
      intros q Hq. destruct (Hfirst q Hq) as (l1 & l2 & -> & Hl1).
      exists (p :: l1), l2. split; [done|].
      intros p' Hp'. apply elem_of_cons in Hp' as [->|Hp']; [|by apply Hl1].
      intros Heq. rewrite He in Heq. symmetry in Heq.
      apply (Hfresh q e Hq Heq).
      destruct (decide (e ∈ seen)); [done | by destruct Hold].
Qed.

Lemma slice_to_prefix {A} (l : list A) (stop : Z) :
  slice_to l stop `prefix_of` l.
Proof.
  unfold slice_to. destruct (0 <=? stop)%Z; eexists; symmetry;
    apply take_drop.
Qed.

Lemma first_with_its_email_has (l : list dict) (q : dict) :
  first_with_its_email l q -> q ∈ l.
Proof.
  intros (l1 & l2 & -> & _). apply elem_of_app. right.
  apply elem_of_cons. by left.
Qed.

Lemma remove_duplicates_spec (l : list dict) :
  Forall (has_key "email") l ->
  exists unique : list dict,
    remove_duplicates l = Ok unique /\
    unique `sublist_of` l /\
    NoDup (emails unique) /\
    (forall p, p ∈ l -> exists q, q ∈ unique /\ q !! "email" = p !! "email") /\
    (forall q, q ∈ unique -> first_with_its_email l q).
Proof.
  intros Hl.
  destruct (remove_duplicates_loop_spec l Hl ∅ [])
    as (u & Hrun & Hsub & Hnd & _ & Hcover & Hfirst).
  exists u. split; [done|]. split; [done|]. split; [done|]. split; [|done].
  intros p Hp.
  assert (has_key "email" p) as [e He].
  { rewrite Forall_forall in Hl. by apply Hl. }
  destruct (Hcover p e Hp He) as [Hin|(q & Hq & Hqe)]; [set_solver|].
  exists q. split; [done | congruence].
Qed.

Lemma remove_duplicates_has_email (l unique : list dict) :
  remove_duplicates l = Ok unique -> Forall (has_key "email") unique.
Proof.
  unfold remove_duplicates.
  assert (Forall (has_key "email") (@nil dict)) as Hacc by constructor.
  revert Hacc. generalize (∅ : gset string) (@nil dict).
  induction l as [|p rest IH]; intros seen acc Hacc; simpl.
  - by intros [= <-].
  - unfold getitem. destruct (p !! "email") as [e|] eqn:He; [|done].
    destruct (decide (e ∉ seen)); [|by apply IH].
    apply IH. apply Forall_app. split; [done|].
    constructor; [|constructor]. by exists e.
Qed.

Lemma prefix_emails_NoDup (audience unique : list dict) :
  audience `prefix_of` unique -> NoDup (emails unique) ->
  NoDup (emails audience).
Proof.
  intros [k ->]. unfold emails. rewrite fmap_app.
  intros H. by apply NoDup_app in H as [H _].
Qed.

(** C2. Whatever the recipient lists, each email address is in the built
    audience at most once; the audience keeps the order of the lists and,
    of the prospects that share an address, the first one in
    list-then-within-list order; before the cap every address of the lists
    is kept.  With A = [a@x, b@x], B = [b@x, c@x] and cap 2 the audience
    is [a@x, b@x], also as [send_campaign] schedules it. *)
Theorem audience_keeps_first_occurrences :
  (forall (lists : list (list dict)) (campaign : Campaign),
     Forall (Forall (has_key "email")) lists ->
     exists unique : list dict,
       remove_duplicates (concat lists) = Ok unique /\
       (forall p, p ∈ concat lists ->
          exists q, q ∈ unique /\ q !! "email" = p !! "email") /\
       let audience := limit_to_max_emails campaign unique in
       NoDup (emails audience) /\
       audience `sublist_of` concat lists /\
       (forall q, q ∈ audience -> first_with_its_email (concat lists) q)) /\
  (exists unique : list dict,
     remove_duplicates (concat [list_A; list_B]) = Ok unique /\
     limit_to_max_emails (campaign_AB (Some 2%Z)) unique =
       [prospect_of "1" "a@x"; prospect_of "2" "b@x"]) /\
  background_tasks
    (snd (send_campaign (healthy_store (Some 2%Z)) "c1" empty_world)) =
    [("c1", [prospect_of "1" "a@x"; prospect_of "2" "b@x"],
      welcome_template)].
Proof.
  split; [|split].
  - intros lists campaign Hlists.
    assert (Forall (has_key "email") (concat lists)) as Hall.
    { by apply Forall_concat. }
    destruct (remove_duplicates_spec _ Hall)
      as (unique & Hrun & Hsub & Hnd & Hcover & Hfirst).
    exists unique. split; [done|]. split; [done|]. simpl.
    pose proof (slice_to_prefix unique (default 100%Z (max_emails campaign)))
      as Hpre.
    unfold limit_to_max_emails.
    generalize dependent (slice_to unique (default 100%Z (max_emails campaign))).
    intros audience [k Hk]. split; [|split].
    + eapply prefix_emails_NoDup; [|exact Hnd]. by exists k.
    + etrans; [|exact Hsub]. rewrite Hk. by apply sublist_inserts_r.
    + intros q Hq. apply Hfirst. rewrite Hk. apply elem_of_app. by left.
  - eexists. split; [vm_compute; reflexivity|]. vm_compute. reflexivity.
  - vm_compute. reflexivity.
Qed.

Lemma audience_keeps_first_occurrences_witness :
  exists unique : list dict,
    remove_duplicates (concat [list_A; list_B]) = Ok unique /\
    (forall p, p ∈ concat [list_A; list_B] ->
       exists q, q ∈ unique /\ q !! "email" = p !! "email") /\
    let audience := limit_to_max_emails (campaign_AB (Some 2%Z)) unique in
    NoDup (emails audience) /\
    audience `sublist_of` concat [list_A; list_B] /\
    (forall q, q ∈ audience ->
       first_with_its_email (concat [list_A; list_B]) q).
Proof.
  apply (proj1 audience_keeps_first_occurrences [list_A; list_B]).
  repeat constructor; by eexists.
Defined.

Lemma slice_to_nonneg {A} (l : list A) (stop : Z) :
  (0 <= stop)%Z -> slice_to l stop = take (Z.to_nat stop) l.
Proof.
  intros H. unfold slice_to.
  destruct (0 <=? stop)%Z eqn:E; [done|]. apply Z.leb_gt in E. lia.
Qed.

(** C3. For a cap [c >= 0] the audience has at most [c] members and is
    the first [c] entries of the deduplicated sequence, hence all of it
    when [c] is at least its length; a campaign without [max_emails] is
    capped at 100. *)
Theorem audience_respects_cap (unique : list dict) :
  (forall (campaign : Campaign) (c : Z),
     (0 <= c)%Z ->
     max_emails campaign = Some c ->
     let audience := limit_to_max_emails campaign unique in
     (Z.of_nat (length audience) <= c)%Z /\
     audience = take (Z.to_nat c) unique /\
     ((Z.of_nat (length unique) <= c)%Z -> audience = unique)) /\
  (forall campaign : Campaign,
     max_emails campaign = None ->
     limit_to_max_emails campaign unique = take 100 unique).
Proof.
  split.
  - intros campaign c Hc Hcap. unfold limit_to_max_emails.
    rewrite Hcap. simpl. rewrite (slice_to_nonneg _ _ Hc).
    split; [|split].
    + rewrite length_take. lia.
    + done.
    + intros Hlen. apply take_ge. lia.
  - intros campaign Hcap. unfold limit_to_max_emails. rewrite Hcap. simpl.
    by rewrite slice_to_nonneg.
Qed.

Lemma audience_respects_cap_witness :
  let unique := list_A ++ [prospect_of "4" "c@x"] in
  let audience := limit_to_max_emails (campaign_AB (Some 2%Z)) unique in
  (Z.of_nat (length audience) <= 2)%Z /\
  audience = take (Z.to_nat 2) unique /\
  ((Z.of_nat (length unique) <= 2)%Z -> audience = unique).
Proof.
  apply (proj1 (audience_respects_cap (list_A ++ [prospect_of "4" "c@x"]))
           (campaign_AB (Some 2%Z)) 2%Z).
  - lia.
  - reflexivity.
Defined.

(** ** The dispatch executor *)

Lemma outcome_first (A B C D : Prop) : D -> A -> B -> C -> A /\ B /\ C /\ D.
Proof. tauto. Qed.

Section Dispatch.

Variable db_service : DbService.
Variable email_provider_service : EmailProviderService.
Variable personalize_template : string -> dict -> result string.
Variable campaign_id : string.
Variables default_provider template : dict.

(** Case analysis on the next key lookup or collaborator call that the
    goal is waiting for. *)
Ltac next_call :=
  match goal with
  | |- context [match @lookup string string dict _ ?k ?d with _ => _ end] =>
      let E := fresh "Ekey" in destruct (d !! k) eqn:E
  | |- context [personalize_template ?a ?b] =>
      let E := fresh "Erender" in destruct (personalize_template a b) eqn:E
  | |- context [send_email ?s ?a ?b ?c ?d] =>
      let E := fresh "Esend" in
      destruct (send_email s a b c d) as [[[|] ?]|?] eqn:E
  | |- context [truthy_str ?x] =>
      let E := fresh "Enotice" in destruct (truthy_str x) eqn:E
  | |- context [create_email_record ?s ?r] =>
      let E := fresh "Erecord" in destruct (create_email_record s r) eqn:E
  | |- context [update_prospect_last_contact ?s ?a ?b] =>
      let E := fresh "Econtact" in
      destruct (update_prospect_last_contact s a b) eqn:E
  end; simpl.

(** Replays the recorded results of calls in the goal. *)
Ltac replay :=
  repeat match goal with
         | H : ?x = _ |- context [match ?x with _ => _ end] =>
             rewrite H; simpl
         end.

Ltac iteration_case :=
  solve [ eapply outcome_first;
          [ match goal with
            | |- iteration_outcome _ _ _ _ _ _ _ _ ?c _ _ _ =>
                try change (incr_sent c) with (count true c);
                try change (incr_failed c) with (count false c)
            end;
            econstructor;
            first [ progress (unfold send_arguments, getitem); replay;
                    reflexivity
                  | unfold outcome_record; simpl; eauto ]
          | simpl; rewrite <- ?app_assoc;
            first [ reflexivity | symmetry; apply app_nil_r ]
          | simpl; unfold failure_notice; replay; rewrite <- ?app_assoc;
            first [ reflexivity | symmetry; apply app_nil_r ]
          | reflexivity ] ].

Lemma iteration_spec (prospect : dict) (email : string) (c : Counters)
    (w : world) :
  prospect !! "email" = Some email ->
  exists c' w' evs out,
    try_except
      (try_body db_service email_provider_service personalize_template
         campaign_id default_provider template prospect)
      (except_body prospect) (c, w) = (Ok tt, (c', w')) /\
    trace w' = trace w ++ evs /\
    stdout w' = stdout w ++ out /\
    background_tasks w' = background_tasks w /\
    iteration_outcome db_service email_provider_service
      personalize_template campaign_id default_provider template
      prospect email c c' evs out.
Proof.
  intros He.
  unfold try_except, try_body, except_body, bind, lift, io, assign, ret,
    provider_send_email, db_create_email_record,
    db_update_prospect_last_contact, generate_id, utcnow, asyncio_sleep,
    print, emit, raise, bind, lift, getitem.
  rewrite !He. simpl.
  repeat next_call.
  all: eexists _, _, _, _; split; [reflexivity|].
  all: iteration_case.
  Unshelve. all: exact 0.
Qed.

Lemma for_prospects_spec (prospects : list dict) :
  Forall (has_key "email") prospects ->
  forall (c : Counters) (w : world),
  exists c' w' evs out,
    for_prospects db_service email_provider_service personalize_template
      campaign_id default_provider template prospects (c, w)
      = (Ok tt, (c', w')) /\
    trace w' = trace w ++ evs /\
    stdout w' = stdout w ++ out /\
    background_tasks w' = background_tasks w /\
    loop_outcome db_service email_provider_service personalize_template
      campaign_id default_provider template prospects c c' evs out.
Proof.
  induction 1 as [|prospect rest [email He] _ IH]; intros c w.
  - exists c, w, [], []. rewrite !app_nil_r.
    repeat split; constructor.
  - destruct (iteration_spec prospect email c w He)
      as (c1 & w1 & evs1 & out1 & Hrun1 & Ht1 & Ho1 & Hb1 & Hit).
    destruct (IH c1 w1)
      as (c2 & w2 & evs2 & out2 & Hrun2 & Ht2 & Ho2 & Hb2 & Hloop).
    exists c2, w2, (evs1 ++ evs2), (out1 ++ out2).
    split; [|split; [|split; [|split]]].
    + simpl. unfold bind at 1. by rewrite Hrun1.
    + by rewrite Ht2, Ht1, app_assoc.
    + by rewrite Ho2, Ho1, app_assoc.
    + by rewrite Hb2.
    + by eapply loop_next.
Qed.

(** *** What the outcomes of the iterations imply *)

Local Abbreviation iteration := (iteration_outcome db_service email_provider_service
  personalize_template campaign_id default_provider template).
Local Abbreviation loop := (loop_outcome db_service email_provider_service
  personalize_template campaign_id default_provider template).
Local Abbreviation records_ok := (records_without_exception db_service
  email_provider_service personalize_template default_provider template).
Local Abbreviation contacts_ok := (contacts_without_exception db_service
  email_provider_service personalize_template default_provider template).

Lemma send_arguments_Ok (prospect : dict)
    (provider_id email subject content : string) :
  send_arguments personalize_template default_provider template prospect
    = Ok (provider_id, email, subject, content) ->
  default_provider !! "id" = Some provider_id /\
  prospect !! "email" = Some email.
Proof.
  unfold send_arguments, getitem. intros H.
  repeat case_match; try discriminate. split; congruence.
Qed.

Lemma iteration_records_le (prospect : dict) (email : string)
    (c c' : Counters) (evs : list event) (out : list log_line) :
  iteration prospect email c c' evs out ->
  length (email_records evs) <= 1.
Proof. destruct 1; simpl; lia. Qed.

Lemma loop_records_le (prospects : list dict) (c c' : Counters)
    (evs : list event) (out : list log_line) :
  loop prospects c c' evs out ->
  length (email_records evs) <= length prospects.
Proof.
  induction 1 as [|p rest email c c1 c2 evs1 evs2 out1 out2 He Hit _ IH];
    [done|].
  unfold email_records in *. rewrite omap_app, length_app. simpl.
  pose proof (iteration_records_le _ _ _ _ _ _ Hit) as H1.
  unfold email_records in H1. lia.
Qed.



(** Every prospect of the audience has its iteration in the run. *)
Lemma loop_each (prospects : list dict) (c c' : Counters)
    (evs : list event) (out : list log_line) (prospect : dict) :
  loop prospects c c' evs out ->
  prospect ∈ prospects ->
  exists email ca cb evs_p out_p before after,
    prospect !! "email" = Some email /\
    iteration prospect email ca cb evs_p out_p /\
    evs = before ++ evs_p ++ after.
Proof.
  induction 1 as [|p rest email c c1 c2 evs1 evs2 out1 out2 He Hit _ IH];
    intros Hin.
  - by apply elem_of_nil in Hin.
  - apply elem_of_cons in Hin as [->|Hin].
    + by exists email, c, c1, evs1, out1, [], evs2.
    + destruct (IH Hin) as (em & ca & cb & evs_p & out_p & pre & post
                            & He' & Hit' & ->).
      exists em, ca, cb, evs_p, out_p, (evs1 ++ pre), post.
      split; [done|]. split; [done|]. by rewrite <- app_assoc.
Qed.

(** Every record of the run comes from the iteration of a prospect of
    the audience. *)
Lemma loop_record_origin (prospects : list dict) (c c' : Counters)
    (evs : list event) (out : list log_line) (r : EmailMessage) :
  loop prospects c c' evs out ->
  r ∈ email_records evs ->
  exists prospect email ca cb evs_p out_p,
    prospect ∈ prospects /\
    prospect !! "email" = Some email /\
    iteration prospect email ca cb evs_p out_p /\
    r ∈ email_records evs_p.
Proof.
  induction 1 as [|p rest email c c1 c2 evs1 evs2 out1 out2 He Hit _ IH];
    intros Hin.
  - by apply elem_of_nil in Hin.
  - unfold email_records in Hin. rewrite omap_app in Hin.
    apply elem_of_app in Hin as [Hin|Hin].
    + exists p, email, c, c1, evs1, out1.
      split; [apply elem_of_cons; by left | done].
    + destruct (IH Hin) as (q & em & ca & cb & evs_p & out_p
                            & Hq & He' & Hit' & Hr).
      exists q, em, ca, cb, evs_p, out_p.
      split; [apply elem_of_cons; by right | done].
Qed.

(** A record says [sent], with a timestamp, when the send for its
    prospect reported success, and [failed], without one, otherwise. *)
Lemma iteration_record_status (prospect : dict) (email : string)
    (c c' : Counters) (evs : list event) (out : list log_line)
    (r : EmailMessage) :
  iteration prospect email c c' evs out ->
  r ∈ email_records evs ->
  exists provider_id success error,
    default_provider !! "id" = Some provider_id /\
    prospect !! "id" = Some (em_prospect_id r) /\
    em_campaign_id r = campaign_id /\
    send_email email_provider_service provider_id email
      (em_subject r) (em_content r) = Ok (success, error) /\
    em_status r = (if success then "sent" else "failed") /\
    (if success then is_Some (em_sent_at r) else em_sent_at r = None).
Proof.
  destruct 1 as [| | |pid s b success error id n now e Ha Hs Hid Hr Hc
                 |pid s b success error id n now Ha Hs Hid Hr Hc];
    simpl; intros Hin;
    try (by apply elem_of_nil in Hin);
    apply list_elem_of_singleton in Hin as ->;
    destruct (send_arguments_Ok _ _ _ _ _ Ha) as [Hp _];
    exists pid, success, error; simpl;
    (repeat split; try done); by destruct success.
Qed.

(** Each iteration ends either in the update of the last-contact
    timestamp or in the [except] block. *)
Lemma loop_every_prospect_handled (prospects : list dict) (c c' : Counters)
    (evs : list event) (out : list log_line) :
  loop prospects c c' evs out ->
  length (logged_errors out) + length (last_contact_updates evs)
    = length prospects.
Proof.
  induction 1 as [|p rest email c c1 c2 evs1 evs2 out1 out2 He Hit _ IH];
    [done|].
  unfold logged_errors, last_contact_updates in *.
  rewrite !omap_app, !length_app. simpl.
  enough (length (omap (fun l => match l with
                                 | ErrorSendingEmail email _ => Some email
                                 | _ => None
                                 end) out1) +
          length (omap (fun e => match e with
                                 | UpdateProspectLastContact id _ => Some id
                                 | _ => None
                                 end) evs1) = 1) by lia.
  destruct Hit; simpl; rewrite ?omap_app; simpl; try done;
    unfold failure_notice; destruct success; simpl; try done;
    destruct (truthy_str error); simpl; done.
Qed.

(** The loop writes no campaign status. *)
Lemma loop_writes_no_status (prospects : list dict) (c c' : Counters)
    (evs : list event) (out : list log_line) :
  loop prospects c c' evs out -> campaign_writes evs = [].
Proof.
  induction 1 as [|p rest email c c1 c2 evs1 evs2 out1 out2 He Hit _ IH];
    [done|].
  unfold campaign_writes in *. rewrite omap_app, IH, app_nil_r.
  by destruct Hit.
Qed.

(** When nothing raises for a prospect, its iteration is the send, the
    record and the update of the timestamp, in this order. *)
Lemma iteration_contacts_ok (prospect : dict) (email : string)
    (c c' : Counters) (evs : list event) (out : list log_line) :
  iteration prospect email c c' evs out ->
  contacts_ok prospect ->
  exists provider_id subject content sent r prospect_id now,
    prospect !! "id" = Some prospect_id /\
    evs = [SendEmail provider_id email subject content (Ok sent);
           CreateEmailRecord r;
           UpdateProspectLastContact prospect_id now].
Proof.
  intros Hit [(pid & em & s & b & sent & id & Hargs & Hsend & Hid & Hrec)
              Hcontact].
  destruct Hit as [e Ha|? ? ? e Ha Hs|? ? ? ? ? ? ? e Ha Hs Hr
                   |? ? ? ? ? ? ? ? e Ha Hs Hi Hr Hc
                   |? ? ? ? ? ? ? ? Ha Hs Hi Hr Hc].
  - congruence.
  - rewrite Hargs in Ha. injection Ha as <- <- <-. congruence.
  - rewrite Hargs in Ha. injection Ha as <- <- <-.
    destruct Hr as [[Hnone _]|(id' & Hid' & Hr)]; [congruence|].
    rewrite Hrec in Hr; [done|]. simpl. congruence.
  - rewrite (Hcontact _ _ Hi) in Hc. done.
  - eexists _, _, _, (_, _), _, _, _. split; [exact Hi | reflexivity].
Qed.

(** When the update of the timestamp never raises, every iteration
    counts its prospect once. *)
Lemma loop_counts_once (prospects : list dict) (c c' : Counters)
    (evs : list event) (out : list log_line) :
  (forall prospect_id now,
     update_prospect_last_contact db_service prospect_id now = None) ->
  loop prospects c c' evs out ->
  sent_count c' + failed_count c'
    = sent_count c + failed_count c + length prospects.
Proof.
  intros Hcontact.
  induction 1 as [|p rest email c c1 c2 evs1 evs2 out1 out2 He Hit _ IH];
    [simpl; lia|].
  rewrite IH. simpl.
  enough (sent_count c1 + failed_count c1
          = S (sent_count c + failed_count c)) by lia.
  destruct Hit; simpl; try lia.
  - by rewrite Hcontact in *.
  - destruct success; simpl; lia.
Qed.

(** A run with a default provider: the loop, the status write, the
    closing line. *)
Lemma process_campaign_emails_spec (prospects : list dict) (w : world) :
  truthy (get_default_provider email_provider_service)
    = Some default_provider ->
  Forall (has_key "email") prospects ->
  exists c' w' evs out,
    process_campaign_emails db_service email_provider_service
      personalize_template campaign_id prospects template w = (Ok tt, w') /\
    trace w' = trace w ++ evs ++ [UpdateCampaign campaign_id "completed" None] /\
    stdout w' = stdout w ++ out ++
      [CampaignCompleted campaign_id (sent_count c') (failed_count c')] /\
    background_tasks w' = background_tasks w /\
    loop_outcome db_service email_provider_service personalize_template
      campaign_id default_provider template prospects
      {| sent_count := 0; failed_count := 0 |} c' evs out.
Proof.
  intros Hprov Hall.
  destruct (for_prospects_spec prospects Hall
              {| sent_count := 0; failed_count := 0 |} w)
    as (c' & w' & evs & out & Hrun & Ht & Ho & Hb & Hloop).
  unfold process_campaign_emails, call. rewrite Hprov.
  unfold bind at 1. rewrite Hrun.
  eexists c', _, evs, out. simpl. split; [reflexivity|]. simpl.
  rewrite Ht, Ho, Hb, <- !app_assoc. done.
Qed.

(** A run without a default provider: one line, and nothing else. *)
Lemma process_campaign_emails_no_provider (prospects : list dict)
    (w : world) :
  truthy (get_default_provider email_provider_service) = None ->
  process_campaign_emails db_service email_provider_service
    personalize_template campaign_id prospects template w
  = (Ok tt, {| trace := trace w;
               stdout := stdout w ++ [NoDefaultProvider campaign_id];
               clock := clock w; next_id := next_id w;
               background_tasks := background_tasks w |}).
Proof.
  intros Hprov. unfold process_campaign_emails, call. by rewrite Hprov.
Qed.

End Dispatch.

(** ** The trigger *)

Section Trigger.

Variable db_service : DbService.
Variable email_provider_service : EmailProviderService.
Variable personalize_template : string -> dict -> result string.

(** A rejected trigger has written nothing and scheduled nothing. *)
Lemma send_campaign_Raise (campaign_id : string) (w w' : world) (e : exn) :
  send_campaign db_service campaign_id w = (Raise e, w') -> w' = w.
Proof.
  unfold send_campaign, bind, lift, raise.
  repeat case_match; intros Hrun; by simplify_eq.
Qed.

(** An accepted trigger has built the audience from the lists of the
    campaign, scheduled the run for it and written the [active] status
    with its size. *)
Lemma send_campaign_Ok (campaign_id : string) (w w' : world)
    (response : SendResponse) :
  send_campaign db_service campaign_id w = (Ok response, w') ->
  exists campaign tid template prospects unique,
    get_campaign_by_id db_service campaign_id = Some campaign /\
    template_id campaign = Some tid /\
    truthy (get_template_by_id db_service tid) = Some template /\
    get_prospects_from_lists db_service (default [] (list_ids campaign)) []
      = Ok prospects /\
    remove_duplicates prospects = Ok unique /\
    response = {| resp_campaign_id := campaign_id;
                  resp_status := "active";
                  resp_total_prospects :=
                    length (limit_to_max_emails campaign unique) |} /\
    w' = {| trace := trace w ++
              [UpdateCampaign campaign_id "active"
                 (Some (length (limit_to_max_emails campaign unique)))];
            stdout := stdout w; clock := clock w; next_id := next_id w;
            background_tasks := background_tasks w ++
              [(campaign_id, limit_to_max_emails campaign unique,
                template)] |}.
Proof.
  unfold send_campaign, bind, lift, raise, add_task, db_update_campaign,
    emit, ret.
  destruct (get_campaign_by_id db_service campaign_id) as [campaign|];
    [|done].
  destruct (template_id campaign) as [tid|] eqn:Etid; [|done].
  destruct (truthy (get_template_by_id db_service tid)) as [template|] eqn:Et;
    [|done].
  destruct (get_prospects_from_lists _ _ _) as [prospects|] eqn:Ep; [|done].
  destruct (remove_duplicates prospects) as [unique|] eqn:Eu; [|done].
  simpl. intros [= <- <-].
  by exists campaign, tid, template, prospects, unique.
Qed.

(** The audience that the trigger schedules has an address for every
    prospect, so the [except] block of the run can always print it. *)
Lemma limit_to_max_emails_has_email (campaign : Campaign)
    (prospects unique : list dict) :
  remove_duplicates prospects = Ok unique ->
  Forall (has_key "email") (limit_to_max_emails campaign unique).
Proof.
  intros Hu. apply remove_duplicates_has_email in Hu.
  destruct (slice_to_prefix unique (default 100%Z (max_emails campaign)))
    as [k Hk].
  unfold limit_to_max_emails. rewrite Hk in Hu.
  by apply Forall_app in Hu as [Hu _].
Qed.

End Trigger.

Lemma get_prospects_from_lists_concat (db_service : DbService)
    (ids : list string) (lists : list (list dict)) (acc : list dict) :
  Forall2 (fun list_id l => get_prospects_by_list_id db_service list_id = Ok l)
    ids lists ->
  get_prospects_from_lists db_service ids acc = Ok (acc ++ concat lists).
Proof.
  intros H. revert acc.
  induction H as [|list_id l ids lists Hl _ IH]; intros acc; simpl.
  - by rewrite app_nil_r.
  - by rewrite Hl, IH, app_assoc.
Qed.

(** ** Two runs, step by step *)

(** One reported failure among three recipients: one [failed] record
    between two [sent] ones, three updated timestamps, and the run
    completes with 2 sent and 1 failed. *)
Example smtp_timeout_scenario :
  let run :=
    process_campaign_emails (healthy_store None)
      (provider_service (Some smtp_provider) (smtp_timeout_for "b@x"))
      verbatim "c1" three_recipients welcome_template empty_world in
  fst run = Ok tt /\
  em_status <$> email_records (trace (snd run)) = ["sent"; "failed"; "sent"] /\
  last_contact_updates (trace (snd run)) = ["1"; "2"; "3"] /\
  campaign_writes (trace (snd run)) = [("c1", "completed", None)] /\
  stdout (snd run) = [EmailSendingFailed "b@x" "SMTP timeout";
                      CampaignCompleted "c1" 2 1].
Proof. vm_compute. repeat split. Qed.

(** The [except] block prints the address of the prospect: for a
    prospect without one (which the trigger never schedules, since
    deduplication reads the address of every prospect) the [KeyError]
    raised by the [try] block is followed by one that leaves the loop. *)
Example except_block_reads_the_email :
  process_campaign_emails (healthy_store None)
    (provider_service (Some smtp_provider) delivers) verbatim "c1"
    [<["id" := "1"]> ∅] welcome_template empty_world
  = (Raise (KeyError "email"), empty_world).
Proof. vm_compute. reflexivity. Qed.

(** ** The claims about the dispatch run *)

(** C4. Without a default provider the run returns at once: it creates no
    outcome record, makes no send attempt, touches no prospect and writes
    no campaign status, so that [completed] is never set and the campaign
    keeps the status it had; the only thing left is the printed line. *)
Theorem no_provider_no_progress (db_service : DbService)
    (email_provider_service : EmailProviderService)
    (personalize_template : string -> dict -> result string)
    (campaign_id : string) (prospects : list dict) (template : dict)
    (w : world) :
  truthy (get_default_provider email_provider_service) = None ->
  exists w',
    process_campaign_emails db_service email_provider_service
      personalize_template campaign_id prospects template w = (Ok tt, w') /\
    trace w' = trace w /\
    email_records (trace w') = email_records (trace w) /\
    send_attempts (trace w') = send_attempts (trace w) /\
    last_contact_updates (trace w') = last_contact_updates (trace w) /\
    campaign_writes (trace w') = campaign_writes (trace w) /\
    stdout w' = stdout w ++ [NoDefaultProvider campaign_id].
Proof.
  intros Hprov. eexists. split.
  - by apply process_campaign_emails_no_provider.
  - by simpl.
Qed.

Lemma no_provider_no_progress_witness :
  exists w',
    process_campaign_emails (healthy_store None)
      (provider_service None delivers) verbatim "c1" list_A welcome_template
      empty_world = (Ok tt, w') /\
    trace w' = trace empty_world /\
    email_records (trace w') = email_records (trace empty_world) /\
    send_attempts (trace w') = send_attempts (trace empty_world) /\
    last_contact_updates (trace w')
      = last_contact_updates (trace empty_world) /\
    campaign_writes (trace w') = campaign_writes (trace empty_world) /\
    stdout w' = stdout empty_world ++ [NoDefaultProvider "c1"].
Proof.
  apply (no_provider_no_progress (healthy_store None)
           (provider_service None delivers) verbatim "c1" list_A
           welcome_template empty_world).
  reflexivity.
Defined.






(** C5. In a run with a default provider over an audience as the trigger
    builds it (every prospect has an address), no exception leaves the
    loop: the run returns normally and writes [completed] as its last
    effect.  Every recipient is taken in turn, its pass ending either in
    the update of its timestamp or in the [except] block; and a recipient
    for which nothing raises gets its record and its update whatever the
    others raised. *)
Theorem exceptions_are_isolated (db_service : DbService)
    (email_provider_service : EmailProviderService)
    (personalize_template : string -> dict -> result string)
    (campaign_id : string) (prospects : list dict)
    (default_provider template : dict) (w : world) :
  truthy (get_default_provider email_provider_service)
    = Some default_provider ->
  Forall (has_key "email") prospects ->
  exists w' evs out sent failed,
    process_campaign_emails db_service email_provider_service
      personalize_template campaign_id prospects template w = (Ok tt, w') /\
    trace w' = trace w ++ evs ++ [UpdateCampaign campaign_id "completed" None] /\
    stdout w' = stdout w ++ out ++
      [CampaignCompleted campaign_id sent failed] /\
    length (logged_errors out) + length (last_contact_updates evs)
      = length prospects /\
    (forall p, p ∈ prospects ->
       contacts_without_exception db_service email_provider_service
         personalize_template default_provider template p ->
       exists r, r ∈ email_records evs /\
         p !! "id" = Some (em_prospect_id r) /\
         em_prospect_id r ∈ last_contact_updates evs).
Proof.
  intros Hprov Hall.
  destruct (process_campaign_emails_spec db_service email_provider_service
              personalize_template campaign_id default_provider template
              prospects w Hprov Hall)
    as (c' & w' & evs & out & Hrun & Ht & Ho & _ & Hloop).
  exists w', evs, out, (sent_count c'), (failed_count c').
  split; [done|]. split; [done|]. split; [done|].
  split; [by eapply loop_every_prospect_handled|].
  intros p Hp Hok.
  destruct (loop_each _ _ _ _ _ _ _ _ _ _ _ p Hloop Hp)
    as (email & ca & cb & evs_p & out_p & pre & post & He & Hit & ->).
  destruct (iteration_contacts_ok _ _ _ _ _ _ _ _ _ _ _ _ Hit Hok)
    as (pid & s & b & sent & r & id & now & Hid & ->).
  destruct (iteration_record_status _ _ _ _ _ _ _ _ _ _ _ _ r Hit)
    as (_ & _ & _ & _ & Hrid & _).
  { simpl. by apply list_elem_of_singleton. }
  rewrite Hid in Hrid. injection Hrid as ->.
  exists r. unfold email_records, last_contact_updates.
  rewrite !omap_app. simpl. split; [|split; [done|]].
  - apply elem_of_app. right. apply elem_of_cons. by left.
  - apply elem_of_app. right. apply elem_of_cons. by left.
Qed.

Lemma exceptions_are_isolated_witness :
  exists w' evs out sent failed,
    process_campaign_emails (healthy_store None)
      (provider_service (Some smtp_provider) transport_down) verbatim "c1"
      list_A welcome_template empty_world = (Ok tt, w') /\
    trace w' = trace empty_world ++ evs ++
      [UpdateCampaign "c1" "completed" None] /\
    stdout w' = stdout empty_world ++ out ++
      [CampaignCompleted "c1" sent failed] /\
    length (logged_errors out) + length (last_contact_updates evs)
      = length list_A /\
    (forall p, p ∈ list_A ->
       contacts_without_exception (healthy_store None)
         (provider_service (Some smtp_provider) transport_down) verbatim
         smtp_provider welcome_template p ->
       exists r, r ∈ email_records evs /\
         p !! "id" = Some (em_prospect_id r) /\
         em_prospect_id r ∈ last_contact_updates evs).
Proof.
  apply (exceptions_are_isolated (healthy_store None)
           (provider_service (Some smtp_provider) transport_down) verbatim
           "c1" list_A smtp_provider welcome_template empty_world).
  - reflexivity.
  - repeat constructor; by eexists.
Defined.

(** C6. Every outcome record that a run creates says [sent] and carries
    a timestamp, or says [failed] and carries none; it says [sent] exactly
    when the send for its prospect, with the subject and the content of
    the record, reported success. *)
Theorem sent_records_carry_a_timestamp (db_service : DbService)
    (email_provider_service : EmailProviderService)
    (personalize_template : string -> dict -> result string)
    (campaign_id : string) (prospects : list dict) (template : dict)
    (w : world) :
  Forall (has_key "email") prospects ->
  exists w' evs,
    process_campaign_emails db_service email_provider_service
      personalize_template campaign_id prospects template w = (Ok tt, w') /\
    trace w' = trace w ++ evs /\
    forall r, r ∈ email_records evs ->
      (em_status r = "sent" -> is_Some (em_sent_at r)) /\
      (em_status r = "failed" -> em_sent_at r = None) /\
      exists default_provider provider_id p email success error,
        truthy (get_default_provider email_provider_service)
          = Some default_provider /\
        default_provider !! "id" = Some provider_id /\
        p ∈ prospects /\
        p !! "id" = Some (em_prospect_id r) /\
        p !! "email" = Some email /\
        send_email email_provider_service provider_id email
          (em_subject r) (em_content r) = Ok (success, error) /\
        (em_status r = "sent" <-> success = true) /\
        (em_status r = "failed" <-> success = false).
Proof.
  intros Hall.
  destruct (truthy (get_default_provider email_provider_service))
    as [default_provider|] eqn:Hprov.
  - destruct (process_campaign_emails_spec db_service email_provider_service
                personalize_template campaign_id default_provider template
                prospects w Hprov Hall)
      as (c' & w' & evs & out & Hrun & Ht & _ & _ & Hloop).
    exists w', (evs ++ [UpdateCampaign campaign_id "completed" None]).
    split; [done|]. split; [done|].
    intros r Hr. unfold email_records in Hr. rewrite omap_app in Hr.
    simpl in Hr. rewrite app_nil_r in Hr.
    destruct (loop_record_origin _ _ _ _ _ _ _ _ _ _ _ r Hloop Hr)
      as (p & email & ca & cb & evs_p & out_p & Hp & He & Hit & Hrp).
    destruct (iteration_record_status _ _ _ _ _ _ _ _ _ _ _ _ r Hit Hrp)
      as (pid & success & error & Hpid & Hid & _ & Hsend & Hstatus & Hat).
    split; [|split].
    + intros Hs. destruct success; [done|]. by rewrite Hstatus in Hs.
    + intros Hs. destruct success; [|done]. by rewrite Hstatus in Hs.
    + exists default_provider, pid, p, email, success, error.
      repeat (split; [done|]).
      rewrite Hstatus. by destruct success.
  - exists (snd (process_campaign_emails db_service email_provider_service
                   personalize_template campaign_id prospects template w)),
      [].
    rewrite (process_campaign_emails_no_provider _ _ _ _ _ _ _ Hprov).
    simpl. split; [done|]. split; [by rewrite app_nil_r|].
    intros r Hr. by apply elem_of_nil in Hr.
Qed.

Lemma sent_records_carry_a_timestamp_witness :
  exists w' evs,
    process_campaign_emails (healthy_store None)
      (provider_service (Some smtp_provider) delivers) verbatim "c1" list_A
      welcome_template empty_world = (Ok tt, w') /\
    trace w' = trace empty_world ++ evs /\
    forall r, r ∈ email_records evs ->
      (em_status r = "sent" -> is_Some (em_sent_at r)) /\
      (em_status r = "failed" -> em_sent_at r = None) /\
      exists default_provider provider_id p email success error,
        truthy (get_default_provider
                  (provider_service (Some smtp_provider) delivers))
          = Some default_provider /\
        default_provider !! "id" = Some provider_id /\
        p ∈ list_A /\
        p !! "id" = Some (em_prospect_id r) /\
        p !! "email" = Some email /\
        send_email (provider_service (Some smtp_provider) delivers)
          provider_id email (em_subject r) (em_content r)
          = Ok (success, error) /\
        (em_status r = "sent" <-> success = true) /\
        (em_status r = "failed" <-> success = false).
Proof.
  apply (sent_records_carry_a_timestamp (healthy_store None)
           (provider_service (Some smtp_provider) delivers) verbatim "c1"
           list_A welcome_template empty_world).
  repeat constructor; by eexists.
Defined.

(** C7, as the code has it.  For every recipient for which nothing raises
    (rendering, the send, the storing of the record, the update itself),
    the run updates the last-contact timestamp after the send attempt and
    the record, whether the send reported success or failure. *)
Theorem last_contact_updated_without_exception (db_service : DbService)
    (email_provider_service : EmailProviderService)
    (personalize_template : string -> dict -> result string)
    (campaign_id : string) (prospects : list dict)
    (default_provider template : dict) (w : world) :
  truthy (get_default_provider email_provider_service)
    = Some default_provider ->
  Forall (has_key "email") prospects ->
  exists w' evs,
    process_campaign_emails db_service email_provider_service
      personalize_template campaign_id prospects template w = (Ok tt, w') /\
    trace w' = trace w ++ evs /\
    forall p, p ∈ prospects ->
      contacts_without_exception db_service email_provider_service
        personalize_template default_provider template p ->
      exists email prospect_id provider_id subject content sent r now
             before after,
        p !! "email" = Some email /\
        p !! "id" = Some prospect_id /\
        evs = before ++
              [SendEmail provider_id email subject content (Ok sent);
               CreateEmailRecord r;
               UpdateProspectLastContact prospect_id now] ++ after.
Proof.
  intros Hprov Hall.
  destruct (process_campaign_emails_spec db_service email_provider_service
              personalize_template campaign_id default_provider template
              prospects w Hprov Hall)
    as (c' & w' & evs & out & Hrun & Ht & _ & _ & Hloop).
  exists w', (evs ++ [UpdateCampaign campaign_id "completed" None]).
  split; [done|]. split; [done|].
  intros p Hp Hok.
  destruct (loop_each _ _ _ _ _ _ _ _ _ _ _ p Hloop Hp)
    as (email & ca & cb & evs_p & out_p & pre & post & He & Hit & ->).
  destruct (iteration_contacts_ok _ _ _ _ _ _ _ _ _ _ _ _ Hit Hok)
    as (pid & s & b & sent & r & id & now & Hid & ->).
  exists email, id, pid, s, b, sent, r, now, pre,
    (post ++ [UpdateCampaign campaign_id "completed" None]).
  split; [done|]. split; [done|]. by rewrite <- !app_assoc.
Qed.

Lemma last_contact_updated_without_exception_witness :
  exists w' evs,
    process_campaign_emails (healthy_store None)
      (provider_service (Some smtp_provider) delivers) verbatim "c1" list_A
      welcome_template empty_world = (Ok tt, w') /\
    trace w' = trace empty_world ++ evs /\
    forall p, p ∈ list_A ->
      contacts_without_exception (healthy_store None)
        (provider_service (Some smtp_provider) delivers) verbatim
        smtp_provider welcome_template p ->
      exists email prospect_id provider_id subject content sent r now
             before after,
        p !! "email" = Some email /\
        p !! "id" = Some prospect_id /\
        evs = before ++
              [SendEmail provider_id email subject content (Ok sent);
               CreateEmailRecord r;
               UpdateProspectLastContact prospect_id now] ++ after.
Proof.
  apply (last_contact_updated_without_exception (healthy_store None)
           (provider_service (Some smtp_provider) delivers) verbatim "c1"
           list_A smtp_provider welcome_template empty_world).
  - reflexivity.
  - repeat constructor; by eexists.
Defined.

(** C7 as stated fails: when the transport raises, the run finalizes
    and no recipient of the list A has its timestamp updated. *)
Lemma last_contact_always_updated_counterexample :
  ~ (forall (db_service : DbService)
       (email_provider_service : EmailProviderService)
       (personalize_template : string -> dict -> result string)
       (campaign_id : string) (prospects : list dict) (template : dict)
       (w w' : world),
       process_campaign_emails db_service email_provider_service
         personalize_template campaign_id prospects template w
         = (Ok tt, w') ->
       UpdateCampaign campaign_id "completed" None ∈ trace w' ->
       forall p prospect_id, p ∈ prospects ->
         p !! "id" = Some prospect_id ->
         prospect_id ∈ last_contact_updates (trace w')).
Proof.
  intros claim.
  pose (run := process_campaign_emails (healthy_store None)
                 (provider_service (Some smtp_provider) transport_down)
                 verbatim "c1" list_A welcome_template empty_world).
  assert (run = (Ok tt, snd run)) as Hrun by (vm_compute; reflexivity).
  specialize (claim (healthy_store None)
                (provider_service (Some smtp_provider) transport_down)
                verbatim "c1" list_A welcome_template empty_world (snd run)
                Hrun).
  assert (UpdateCampaign "c1" "completed" None ∈ trace (snd run)) as Hdone.
  { vm_compute. repeat constructor. }
  specialize (claim Hdone (prospect_of "1" "a@x") "1").
  assert (last_contact_updates (trace (snd run)) = []) as Hnone
    by (vm_compute; reflexivity).
  rewrite Hnone in claim. eapply not_elem_of_nil, claim.
  - apply elem_of_cons. by left.
  - reflexivity.
Qed.

(** ** The claims about the trigger followed by its run *)

(** C8. A rejected trigger writes nothing.  An accepted one writes
    [active], with the size of the audience, before anything the run
    does; the run then either stops for want of a provider, with no
    effect, or takes every recipient in turn without writing any status
    and writes [completed] as its very last effect. *)
Theorem campaign_status_is_monotonic (db_service : DbService)
    (email_provider_service : EmailProviderService)
    (personalize_template : string -> dict -> result string)
    (campaign_id : string) (w : world) :
  match post_campaign_send db_service email_provider_service
          personalize_template campaign_id w with
  | (Raise e, w') => trace w' = trace w
  | (Ok response, w') =>
      exists evs out,
        trace w' = trace w ++
          UpdateCampaign campaign_id "active"
            (Some (resp_total_prospects response)) :: evs /\
        stdout w' = stdout w ++ out /\
        (truthy (get_default_provider email_provider_service) = None /\
         evs = []
         \/
         exists loop_evs,
           evs = loop_evs ++ [UpdateCampaign campaign_id "completed" None] /\
           campaign_writes loop_evs = [] /\
           length (logged_errors out) + length (last_contact_updates loop_evs)
             = resp_total_prospects response)
  end.
Proof.
  unfold post_campaign_send.
  destruct (send_campaign db_service campaign_id (no_tasks w))
    as [[response|e] w1] eqn:Hsend.
  - apply send_campaign_Ok in Hsend
      as (campaign & tid & template & prospects & unique
          & _ & _ & _ & _ & Hu & -> & ->).
    pose proof (limit_to_max_emails_has_email campaign _ _ Hu) as Hall.
    simpl. unfold bind.
    destruct (truthy (get_default_provider email_provider_service))
      as [default_provider|] eqn:Hprov.
    + match goal with
      | |- context [process_campaign_emails _ _ _ _ _ _ ?w0] =>
          destruct (process_campaign_emails_spec db_service
                      email_provider_service personalize_template
                      campaign_id default_provider template _ w0 Hprov Hall)
            as (c' & w' & evs & out & Hrun & Ht & Ho & _ & Hloop)
      end.
      rewrite Hrun. simpl in *.
      exists (evs ++ [UpdateCampaign campaign_id "completed" None]),
        (out ++ [CampaignCompleted campaign_id (sent_count c')
                   (failed_count c')]).
      split; [by rewrite Ht, <- !app_assoc|]. split; [done|].
      right. exists evs. split; [done|].
      split; [by eapply loop_writes_no_status|].
      unfold logged_errors. rewrite omap_app. simpl. rewrite app_nil_r.
      by eapply loop_every_prospect_handled.
    + rewrite (process_campaign_emails_no_provider _ _ _ _ _ _ _ Hprov).
      simpl. exists [], [NoDefaultProvider campaign_id].
      split; [done|]. split; [done|]. by left.
  - apply send_campaign_Raise in Hsend as ->. done.
Qed.

(** C9, as the code has it.  When the cap is 0, the trigger is accepted
    and a default provider is configured, the trigger writes [active]
    with count 0 and the run writes [completed] next: there is no send
    attempt and no outcome record. *)
Theorem zero_cap_completes_with_provider (db_service : DbService)
    (email_provider_service : EmailProviderService)
    (personalize_template : string -> dict -> result string)
    (campaign_id : string) (campaign : Campaign) (default_provider : dict)
    (response : SendResponse) (w : world) :
  get_campaign_by_id db_service campaign_id = Some campaign ->
  max_emails campaign = Some 0%Z ->
  fst (send_campaign db_service campaign_id (no_tasks w)) = Ok response ->
  truthy (get_default_provider email_provider_service)
    = Some default_provider ->
  exists w',
    post_campaign_send db_service email_provider_service
      personalize_template campaign_id w = (Ok response, w') /\
    resp_status response = "active" /\
    resp_total_prospects response = 0 /\
    trace w' = trace w ++
      [UpdateCampaign campaign_id "active" (Some 0);
       UpdateCampaign campaign_id "completed" None] /\
    email_records (trace w') = email_records (trace w) /\
    send_attempts (trace w') = send_attempts (trace w) /\
    stdout w' = stdout w ++ [CampaignCompleted campaign_id 0 0].
Proof.
  intros Hcampaign Hcap Haccepted Hprov.
  unfold post_campaign_send.
  destruct (send_campaign db_service campaign_id (no_tasks w))
    as [[response'|e] w1] eqn:Hsend; [|done].
  simpl in Haccepted. injection Haccepted as ->.
  apply send_campaign_Ok in Hsend
    as (campaign' & tid & template & prospects & unique
        & Hcampaign' & _ & _ & _ & _ & -> & ->).
  rewrite Hcampaign in Hcampaign'. injection Hcampaign' as <-.
  unfold limit_to_max_emails. rewrite Hcap. simpl.
  unfold bind, process_campaign_emails, call. rewrite Hprov. simpl.
  eexists. split; [reflexivity|]. simpl.
  unfold email_records, send_attempts. rewrite !omap_app, !app_nil_r.
  rewrite <- !app_assoc. done.
Qed.

Lemma zero_cap_completes_with_provider_witness :
  exists w',
    post_campaign_send (healthy_store (Some 0%Z))
      (provider_service (Some smtp_provider) delivers) verbatim "c1"
      empty_world
    = (Ok {| resp_campaign_id := "c1"; resp_status := "active";
             resp_total_prospects := 0 |}, w') /\
    resp_status {| resp_campaign_id := "c1"; resp_status := "active";
                   resp_total_prospects := 0 |} = "active" /\
    resp_total_prospects {| resp_campaign_id := "c1";
                            resp_status := "active";
                            resp_total_prospects := 0 |} = 0 /\
    trace w' = trace empty_world ++
      [UpdateCampaign "c1" "active" (Some 0);
       UpdateCampaign "c1" "completed" None] /\
    email_records (trace w') = email_records (trace empty_world) /\
    send_attempts (trace w') = send_attempts (trace empty_world) /\
    stdout w' = stdout empty_world ++ [CampaignCompleted "c1" 0 0].
Proof.
  apply (zero_cap_completes_with_provider (healthy_store (Some 0%Z))
           (provider_service (Some smtp_provider) delivers) verbatim "c1"
           (campaign_AB (Some 0%Z)) smtp_provider).
  - reflexivity.
  - reflexivity.
  - vm_compute. reflexivity.
  - reflexivity.
Defined.

(** C9 as stated fails: with cap 0 and no default provider the trigger
    is accepted and writes [active] with count 0, and [completed] is
    never written. *)
Lemma zero_cap_without_provider_counterexample :
  ~ (forall (db_service : DbService)
       (email_provider_service : EmailProviderService)
       (personalize_template : string -> dict -> result string)
       (campaign_id : string) (campaign : Campaign)
       (response : SendResponse) (w : world),
       get_campaign_by_id db_service campaign_id = Some campaign ->
       max_emails campaign = Some 0%Z ->
       fst (send_campaign db_service campaign_id (no_tasks w))
         = Ok response ->
       UpdateCampaign campaign_id "completed" None
         ∈ trace (snd (post_campaign_send db_service email_provider_service
                         personalize_template campaign_id w))).
Proof.
  intros claim.
  specialize (claim (healthy_store (Some 0%Z))
                (provider_service None delivers) verbatim "c1"
                (campaign_AB (Some 0%Z))
                {| resp_campaign_id := "c1"; resp_status := "active";
                   resp_total_prospects := 0 |}
                empty_world eq_refl eq_refl).
  assert (trace (snd (post_campaign_send (healthy_store (Some 0%Z))
                        (provider_service None delivers) verbatim "c1"
                        empty_world))
          = [UpdateCampaign "c1" "active" (Some 0)]) as Htrace
    by (vm_compute; reflexivity).
  rewrite Htrace in claim.
  assert (fst (send_campaign (healthy_store (Some 0%Z)) "c1"
                 (no_tasks empty_world))
          = Ok {| resp_campaign_id := "c1"; resp_status := "active";
                  resp_total_prospects := 0 |}) as Haccepted
    by (vm_compute; reflexivity).
  specialize (claim Haccepted).
  apply list_elem_of_singleton in claim. discriminate.
Qed.

(** ** The counters *)

(** C10 at a failing input: one recipient, a send that succeeds, a record
    that is stored, and an update of the last-contact timestamp that
    raises.  The run counts the recipient as sent and, in the [except]
    block, as failed: the closing line reports 1 sent and 1 failed for an
    audience of one. *)
Theorem counters_count_a_recipient_twice :
  let db_service :=
    store None (fun _ => None) (fun _ _ => Some (Error "connection lost")) in
  let run :=
    process_campaign_emails db_service
      (provider_service (Some smtp_provider) delivers) verbatim "c1"
      [prospect_of "1" "a@x"] welcome_template empty_world in
  fst run = Ok tt /\
  email_records (trace (snd run))
    = [outcome_record "c1" "1" "Hello" "Welcome" true 0 0] /\
  last_contact_updates (trace (snd run)) = [] /\
  reported_counters (stdout (snd run)) = [(1, 1)].
Proof. vm_compute. repeat split. Qed.

(** When the update of the timestamp never raises, the two counters of
    the closing line add up to the size of the audience. *)
Lemma counters_add_up_when_contact_update_succeeds
    (db_service : DbService)
    (email_provider_service : EmailProviderService)
    (personalize_template : string -> dict -> result string)
    (campaign_id : string) (prospects : list dict)
    (default_provider template : dict) (w : world) :
  truthy (get_default_provider email_provider_service)
    = Some default_provider ->
  Forall (has_key "email") prospects ->
  (forall prospect_id now,
     update_prospect_last_contact db_service prospect_id now = None) ->
  exists w' out sent failed,
    process_campaign_emails db_service email_provider_service
      personalize_template campaign_id prospects template w = (Ok tt, w') /\
    stdout w' = stdout w ++ out ++
      [CampaignCompleted campaign_id sent failed] /\
    sent + failed = length prospects.
Proof.
  intros Hprov Hall Hcontact.
  destruct (process_campaign_emails_spec db_service email_provider_service
              personalize_template campaign_id default_provider template
              prospects w Hprov Hall)
    as (c' & w' & evs & out & Hrun & _ & Ho & _ & Hloop).
  exists w', out, (sent_count c'), (failed_count c').
  split; [done|]. split; [done|].
  by rewrite (loop_counts_once _ _ _ _ _ _ _ _ _ _ _ Hcontact Hloop).
Qed.

(** * Further properties of the audience builder *)

(** Deduplication reads the address of every prospect. *)
Lemma remove_duplicates_cases (l : list dict) :
  match remove_duplicates l with
  | Ok unique => Forall (has_key "email") l
  | Raise e => e = KeyError "email" /\ exists p, p ∈ l /\ p !! "email" = None
  end.
Proof.
  unfold remove_duplicates.
  generalize (∅ : gset string) (@nil dict).
  induction l as [|p rest IH]; intros seen acc; simpl.
  - constructor.
  - unfold getitem. destruct (p !! "email") as [e|] eqn:He.
    + assert (forall seen' acc',
                match remove_duplicates_loop rest seen' acc' with
                | Ok _ => Forall (has_key "email") (p :: rest)
                | Raise e0 => e0 = KeyError "email" /\
                    exists q, q ∈ p :: rest /\ q !! "email" = None
                end) as Hstep.
      { intros seen' acc'. specialize (IH seen' acc').
        destruct (remove_duplicates_loop rest seen' acc').
        - constructor; [by exists e | done].
        - destruct IH as (-> & q & Hq & Hnone). split; [done|].
          exists q. split; [apply elem_of_cons; by right | done]. }
      destruct (decide (e ∉ seen)); apply Hstep.
    + split; [done|]. exists p. split; [apply elem_of_cons; by left | done].
Qed.

(** X1. Deduplication succeeds exactly when every prospect has an
    ["email"] key; otherwise it raises [KeyError "email"], also for a
    prospect that the cap would have dropped. *)
Theorem remove_duplicates_raises_on_missing_email (l : list dict) :
  (Forall (has_key "email") l <-> exists unique, remove_duplicates l = Ok unique) /\
  (forall e, remove_duplicates l = Raise e ->
     e = KeyError "email" /\ exists p, p ∈ l /\ p !! "email" = None).
Proof.
  pose proof (remove_duplicates_cases l) as Hcases. split; [split|].
  - intros Hall. destruct (remove_duplicates_spec l Hall) as (u & Hu & _).
    by exists u.
  - intros [u Hu]. by rewrite Hu in Hcases.
  - intros e He. by rewrite He in Hcases.
Qed.

Lemma remove_duplicates_loop_no_duplicates (l : list dict) :
  Forall (has_key "email") l ->
  NoDup (emails l) ->
  forall (seen : gset string) (acc : list dict),
    (forall p email, p ∈ l -> p !! "email" = Some email -> email ∉ seen) ->
    remove_duplicates_loop l seen acc = Ok (acc ++ l).
Proof.
  induction 1 as [|p rest [e He] _ IH]; intros Hnd seen acc Hfresh; simpl.
  - by rewrite app_nil_r.
  - unfold emails in Hnd. simpl in Hnd.
    apply NoDup_cons in Hnd as [Hp Hnd].
    rewrite (getitem_Some _ _ _ He).
    destruct (decide (e ∉ seen)) as [_|Hseen].
    + rewrite IH; [by rewrite <- app_assoc | done |].
      intros q email Hq Hqe Hin.
      apply elem_of_union in Hin as [Hin|Hin].
      * apply elem_of_singleton in Hin as ->. apply Hp.
        apply list_elem_of_fmap. exists q. split; [congruence | done].
      * apply (Hfresh q email); [apply elem_of_cons; by right | done | done].
    + destruct Hseen. apply (Hfresh p e); [apply elem_of_cons; by left | done].
Qed.

(** X2. A list in which every prospect has an address and no address
    occurs twice goes through deduplication unchanged. *)
Theorem remove_duplicates_keeps_distinct_prospects (l : list dict) :
  Forall (has_key "email") l ->
  NoDup (emails l) ->
  remove_duplicates l = Ok l.
Proof.
  intros Hall Hnd. unfold remove_duplicates.
  rewrite (remove_duplicates_loop_no_duplicates l Hall Hnd ∅ []); [done|].
  intros p email _ _. apply not_elem_of_empty.
Qed.

Lemma remove_duplicates_keeps_distinct_prospects_witness :
  remove_duplicates three_recipients = Ok three_recipients.
Proof.
  apply (remove_duplicates_keeps_distinct_prospects three_recipients).
  - repeat constructor; by eexists.
  - apply (bool_decide_unpack _). vm_compute. exact I.
Defined.

(** X3. Deduplication is idempotent: what it returns goes through it
    unchanged. *)
Theorem remove_duplicates_idempotent (l unique : list dict) :
  remove_duplicates l = Ok unique ->
  remove_duplicates unique = Ok unique.
Proof.
  intros Hrun.
  pose proof (remove_duplicates_cases l) as Hall. rewrite Hrun in Hall.
  destruct (remove_duplicates_spec l Hall) as (u & Hu & _ & Hnd & _).
  rewrite Hrun in Hu. injection Hu as <-.
  unfold remove_duplicates.
  rewrite (remove_duplicates_loop_no_duplicates unique); [done | | done |].
  - by eapply remove_duplicates_has_email.
  - intros p email _ _. apply not_elem_of_empty.
Qed.

Lemma remove_duplicates_idempotent_witness :
  remove_duplicates list_A = Ok list_A.
Proof.
  apply (remove_duplicates_idempotent (list_A ++ list_A) list_A).
  vm_compute. reflexivity.
Defined.

(** The loop over [l1 ++ l2] is the loop over [l1] followed by the loop
    over [l2], which has then seen every address of [l1]. *)
Lemma remove_duplicates_loop_app (l1 l2 : list dict) :
  forall (seen : gset string) (acc acc' : list dict),
    remove_duplicates_loop l1 seen acc = Ok acc' ->
    exists seen' : gset string,
      seen ⊆ seen' /\
      (forall p email, p ∈ l1 -> p !! "email" = Some email -> email ∈ seen') /\
      remove_duplicates_loop (l1 ++ l2) seen acc
        = remove_duplicates_loop l2 seen' acc'.
Proof.
  induction l1 as [|p rest IH]; intros seen acc acc'; simpl.
  - intros [= <-]. exists seen. split; [done|]. split; [|done].
    intros p email Hp. by apply elem_of_nil in Hp.
  - unfold getitem. destruct (p !! "email") as [e|] eqn:He; [|done].
    destruct (decide (e ∉ seen)) as [Hnew|Hold]; intros Hrun;
      destruct (IH _ _ _ Hrun) as (seen' & Hsub & Hseen & Heq);
      exists seen'; (split; [set_solver|]); (split; [|done]);
      intros q email Hq Hqe; apply elem_of_cons in Hq as [->|Hq];
      try (by apply (Hseen q));
      rewrite He in Hqe; injection Hqe as <-.
    + set_solver.
    + destruct (decide (e ∈ seen)); [set_solver | by destruct Hold].
Qed.

(** X4. Appending lists only appends to the deduplicated sequence: the
    prospects kept from the first lists stay, in the same order, and the
    ones added carry addresses that the first lists do not have.  Hence
    lists further down [list_ids] do not change an audience whose cap the
    earlier lists already fill. *)
Theorem remove_duplicates_stable_under_append (l1 l2 unique1 : list dict) :
  remove_duplicates l1 = Ok unique1 ->
  Forall (has_key "email") l2 ->
  exists unique2 : list dict,
    remove_duplicates (l1 ++ l2) = Ok (unique1 ++ unique2) /\
    unique2 `sublist_of` l2 /\
    (forall p q, p ∈ l1 -> q ∈ unique2 -> p !! "email" <> q !! "email") /\
    (forall (campaign : Campaign) (c : Z),
       max_emails campaign = Some c ->
       (0 <= c <= Z.of_nat (length unique1))%Z ->
       limit_to_max_emails campaign (unique1 ++ unique2)
         = limit_to_max_emails campaign unique1).
Proof.
  intros Hrun1 Hall2. unfold remove_duplicates in *.
  destruct (remove_duplicates_loop_app l1 l2 _ _ _ Hrun1)
    as (seen' & _ & Hseen & Heq).
  destruct (remove_duplicates_loop_spec l2 Hall2 seen' unique1)
    as (u2 & Hrun2 & Hsub & _ & Hfresh & _ & _).
  exists u2. split; [by rewrite Heq|]. split; [done|]. split.
  - intros p q Hp Hq Hsame.
    assert (has_key "email" q) as [e He].
    { rewrite Forall_forall in Hall2. apply Hall2.
      eapply elem_of_sublist; [exact Hq | exact Hsub]. }
    apply (Hfresh q e Hq He). apply (Hseen p); [done | congruence].
  - intros campaign c Hcap [Hc Hlen]. unfold limit_to_max_emails.
    rewrite Hcap. simpl. rewrite !slice_to_nonneg by done.
    apply take_app_le. lia.
Qed.

Lemma remove_duplicates_stable_under_append_witness :
  exists unique2 : list dict,
    remove_duplicates (list_A ++ list_B) = Ok (list_A ++ unique2) /\
    unique2 `sublist_of` list_B /\
    (forall p q, p ∈ list_A -> q ∈ unique2 -> p !! "email" <> q !! "email") /\
    (forall (campaign : Campaign) (c : Z),
       max_emails campaign = Some c ->
       (0 <= c <= Z.of_nat (length list_A))%Z ->
       limit_to_max_emails campaign (list_A ++ unique2)
         = limit_to_max_emails campaign list_A).
Proof.
  apply (remove_duplicates_stable_under_append list_A list_B list_A).
  - vm_compute. reflexivity.
  - repeat constructor; by eexists.
Defined.

(** X5. A negative [max_emails] does not empty the audience: the slice
    [[:c]] then drops the last [-c] prospects of the deduplicated
    sequence and keeps the others. *)
Theorem negative_cap_drops_the_tail (campaign : Campaign)
    (unique : list dict) (c : Z) :
  (c < 0)%Z ->
  max_emails campaign = Some c ->
  let audience := limit_to_max_emails campaign unique in
  let kept := length unique - Z.to_nat (- c) in
  audience = take kept unique /\
  length audience = kept /\
  audience ++ drop kept unique = unique.
Proof.
  intros Hc Hcap. unfold limit_to_max_emails, slice_to. rewrite Hcap. simpl.
  destruct (0 <=? c)%Z eqn:E; [apply Z.leb_le in E; lia|].
  split; [done|]. split; [rewrite length_take; lia | apply take_drop].
Qed.

Lemma negative_cap_drops_the_tail_witness :
  let audience :=
    limit_to_max_emails (campaign_AB (Some (-1)%Z)) three_recipients in
  let kept := length three_recipients - Z.to_nat (- (-1)) in
  audience = take kept three_recipients /\
  length audience = kept /\
  audience ++ drop kept three_recipients = three_recipients.
Proof.
  apply (negative_cap_drops_the_tail (campaign_AB (Some (-1)%Z))
           three_recipients (-1)%Z).
  - lia.
  - reflexivity.
Defined.

(** * Further properties of the trigger *)

Lemma get_prospects_from_lists_first_failure (db_service : DbService)
    (ids1 ids2 : list string) (bad : string) (lists1 : list (list dict))
    (acc : list dict) (e : exn) :
  Forall2 (fun list_id l => get_prospects_by_list_id db_service list_id = Ok l)
    ids1 lists1 ->
  get_prospects_by_list_id db_service bad = Raise e ->
  get_prospects_from_lists db_service (ids1 ++ bad :: ids2) acc = Raise e.
Proof.
  intros H Hbad. revert acc.
  induction H as [|list_id l ids lists Hl _ IH]; intros acc; simpl.
  - by rewrite Hbad.
  - by rewrite Hl, IH.
Qed.

(** X6. The prospects are collected list by list, in the order of
    [list_ids] and, within a list, in the order in which the store gives
    them; the first list whose fetch raises makes the whole collection
    raise that exception, whatever the lists after it would give. *)
Theorem prospects_are_collected_in_list_order (db_service : DbService) :
  (forall (ids : list string) (lists : list (list dict)),
     Forall2 (fun list_id l =>
                get_prospects_by_list_id db_service list_id = Ok l)
       ids lists ->
     get_prospects_from_lists db_service ids [] = Ok (concat lists)) /\
  (forall (ids1 ids2 : list string) (bad : string)
     (lists1 : list (list dict)) (e : exn),
     Forall2 (fun list_id l =>
                get_prospects_by_list_id db_service list_id = Ok l)
       ids1 lists1 ->
     get_prospects_by_list_id db_service bad = Raise e ->
     get_prospects_from_lists db_service (ids1 ++ bad :: ids2) [] = Raise e).
Proof.
  split.
  - intros ids lists H.
    by rewrite (get_prospects_from_lists_concat _ _ _ [] H).
  - intros ids1 ids2 bad lists1 e H Hbad.
    by eapply get_prospects_from_lists_first_failure.
Qed.

Lemma prospects_are_collected_in_list_order_witness :
  get_prospects_from_lists (healthy_store None) ["A"; "B"] []
    = Ok (concat [list_A; list_B]) /\
  get_prospects_from_lists (store_with_failing_list "B")
    (["A"] ++ "B" :: ["C"]) [] = Raise (Error "list unavailable").
Proof.
  split.
  - apply (proj1 (prospects_are_collected_in_list_order (healthy_store None))
             ["A"; "B"] [list_A; list_B]).
    repeat constructor.
  - apply (proj2 (prospects_are_collected_in_list_order
                    (store_with_failing_list "B"))
             ["A"] ["C"] "B" [list_A]).
    + repeat constructor.
    + reflexivity.
Defined.

Lemma truthy_Some (d : option dict) (template : dict) :
  truthy d = Some template -> d = Some template /\ template <> ∅.
Proof.
  unfold truthy. destruct d as [t|]; [|done].
  destruct (bool_decide (t = ∅)) eqn:E; [done|].
  intros [= <-]. by apply bool_decide_eq_false in E.
Qed.

(** X7. Five situations in which the trigger is rejected, each with its
    exception and each before anything is scheduled or written: the
    store has no campaign (404); the campaign has no ["template_id"]
    key; the store has no template, or an empty one (404); the fetch of
    one of the lists raises, the lists before it having been fetched
    (that exception); a prospect of a fetched list has no ["email"] key,
    wherever it stands. *)
Theorem send_campaign_rejects_before_scheduling (db_service : DbService)
    (campaign_id : string) (w : world) :
  (get_campaign_by_id db_service campaign_id = None ->
   send_campaign db_service campaign_id w
   = (Raise (HTTPException 404 "Campaign not found"), w)) /\
  (forall campaign,
     get_campaign_by_id db_service campaign_id = Some campaign ->
     template_id campaign = None ->
     send_campaign db_service campaign_id w
     = (Raise (KeyError "template_id"), w)) /\
  (forall campaign tid,
     get_campaign_by_id db_service campaign_id = Some campaign ->
     template_id campaign = Some tid ->
     truthy (get_template_by_id db_service tid) = None ->
     send_campaign db_service campaign_id w
     = (Raise (HTTPException 404 "Template not found"), w)) /\
  (forall campaign tid template ids1 bad ids2 lists1 e,
     get_campaign_by_id db_service campaign_id = Some campaign ->
     template_id campaign = Some tid ->
     truthy (get_template_by_id db_service tid) = Some template ->
     default [] (list_ids campaign) = ids1 ++ bad :: ids2 ->
     Forall2 (fun list_id l =>
                get_prospects_by_list_id db_service list_id = Ok l)
       ids1 lists1 ->
     get_prospects_by_list_id db_service bad = Raise e ->
     send_campaign db_service campaign_id w = (Raise e, w)) /\
  (forall campaign tid template lists p,
     get_campaign_by_id db_service campaign_id = Some campaign ->
     template_id campaign = Some tid ->
     truthy (get_template_by_id db_service tid) = Some template ->
     Forall2 (fun list_id l =>
                get_prospects_by_list_id db_service list_id = Ok l)
       (default [] (list_ids campaign)) lists ->
     p ∈ concat lists ->
     p !! "email" = None ->
     send_campaign db_service campaign_id w
     = (Raise (KeyError "email"), w)).
Proof.
  unfold send_campaign, bind, lift, raise.
  split; [by intros ->|]. split; [by intros campaign -> ->|].
  split; [by intros campaign tid -> -> ->|]. split.
  - intros campaign tid template ids1 bad ids2 lists1 e -> -> -> ->
      Hlists Hbad.
    by rewrite (get_prospects_from_lists_first_failure _ _ _ _ _ _ _
                  Hlists Hbad).
  - intros campaign tid template lists p -> -> -> Hlists Hp Hnone.
    rewrite (get_prospects_from_lists_concat _ _ _ [] Hlists). simpl.
    pose proof (remove_duplicates_cases (concat lists)) as Hcases.
    destruct (remove_duplicates (concat lists)) as [unique|e].
    + rewrite Forall_forall in Hcases. destruct (Hcases p Hp) as [v Hv].
      congruence.
    + by destruct Hcases as [-> _].
Qed.

Lemma send_campaign_rejects_before_scheduling_witness :
  send_campaign (healthy_store None) "c2" empty_world
  = (Raise (HTTPException 404 "Campaign not found"), empty_world) /\
  send_campaign (store_with_failing_list "B") "c1" empty_world
  = (Raise (Error "list unavailable"), empty_world).
Proof.
  split.
  - apply (proj1 (send_campaign_rejects_before_scheduling
                    (healthy_store None) "c2" empty_world)).
    reflexivity.
  - apply (proj1 (proj2 (proj2 (proj2
             (send_campaign_rejects_before_scheduling
                (store_with_failing_list "B") "c1" empty_world))))
             (campaign_AB None) "t1" welcome_template ["A"] "B" []
             [list_A]).
    + reflexivity.
    + reflexivity.
    + reflexivity.
    + reflexivity.
    + repeat constructor.
    + reflexivity.
Defined.

(** X8. What an accepted trigger has scheduled is the audience built
    from the lists of its campaign: with the lists as the store gave
    them, in the order of [list_ids], the scheduled prospects are the
    capped deduplication of their concatenation, for the stored template
    of the campaign; this one task and the [active] write with the size
    of the audience are all that the trigger has done. *)
Theorem accepted_trigger_schedules_the_built_audience
    (db_service : DbService) (campaign_id : string) (campaign : Campaign)
    (lists : list (list dict)) (w w' : world) (response : SendResponse) :
  send_campaign db_service campaign_id w = (Ok response, w') ->
  get_campaign_by_id db_service campaign_id = Some campaign ->
  Forall2 (fun list_id l => get_prospects_by_list_id db_service list_id = Ok l)
    (default [] (list_ids campaign)) lists ->
  exists (unique : list dict) (tid : string) (template : dict),
    remove_duplicates (concat lists) = Ok unique /\
    template_id campaign = Some tid /\
    get_template_by_id db_service tid = Some template /\
    let audience := limit_to_max_emails campaign unique in
    response = {| resp_campaign_id := campaign_id;
                  resp_status := "active";
                  resp_total_prospects := length audience |} /\
    w' = {| trace := trace w ++
              [UpdateCampaign campaign_id "active" (Some (length audience))];
            stdout := stdout w; clock := clock w; next_id := next_id w;
            background_tasks := background_tasks w ++
              [(campaign_id, audience, template)] |}.
Proof.
  intros Hrun Hcampaign Hlists.
  apply send_campaign_Ok in Hrun
    as (campaign' & tid & template & prospects & unique
        & Hc & Htid & Htemplate & Hp & Hu & -> & ->).
  rewrite Hcampaign in Hc. injection Hc as <-.
  rewrite (get_prospects_from_lists_concat _ _ _ [] Hlists) in Hp.
  injection Hp as <-.
  exists unique, tid, template. split; [done|]. split; [done|].
  split; [by apply truthy_Some in Htemplate as [-> _] | done].
Qed.

Lemma accepted_trigger_schedules_the_built_audience_witness :
  exists (unique : list dict) (tid : string) (template : dict),
    remove_duplicates (concat [list_A; list_B]) = Ok unique /\
    template_id (campaign_AB (Some 2%Z)) = Some tid /\
    get_template_by_id (healthy_store (Some 2%Z)) tid = Some template /\
    let audience := limit_to_max_emails (campaign_AB (Some 2%Z)) unique in
    {| resp_campaign_id := "c1"; resp_status := "active";
       resp_total_prospects := 2 |}
    = {| resp_campaign_id := "c1"; resp_status := "active";
         resp_total_prospects := length audience |} /\
    snd (send_campaign (healthy_store (Some 2%Z)) "c1" empty_world)
    = {| trace := trace empty_world ++
           [UpdateCampaign "c1" "active" (Some (length audience))];
         stdout := stdout empty_world; clock := clock empty_world;
         next_id := next_id empty_world;
         background_tasks := background_tasks empty_world ++
           [("c1", audience, template)] |}.
Proof.
  apply (accepted_trigger_schedules_the_built_audience
           (healthy_store (Some 2%Z)) "c1" (campaign_AB (Some 2%Z))
           [list_A; list_B] empty_world).
  - vm_compute. reflexivity.
  - reflexivity.
  - repeat constructor.
Defined.

(** X9. Whatever the store holds, the audience that an accepted trigger
    schedules has an address for every prospect and no address twice,
    and its size is the count in the answer and in the [active] write. *)
Theorem scheduled_audience_has_distinct_addresses (db_service : DbService)
    (campaign_id : string) (w w' : world) (response : SendResponse) :
  send_campaign db_service campaign_id w = (Ok response, w') ->
  exists (audience : list dict) (template : dict),
    background_tasks w' = background_tasks w ++
      [(campaign_id, audience, template)] /\
    Forall (has_key "email") audience /\
    NoDup (emails audience) /\
    resp_total_prospects response = length audience /\
    resp_status response = "active" /\
    trace w' = trace w ++
      [UpdateCampaign campaign_id "active" (Some (length audience))] /\
    template <> ∅.
Proof.
  intros Hrun.
  apply send_campaign_Ok in Hrun
    as (campaign & tid & template & prospects & unique
        & _ & _ & Htemplate & _ & Hu & -> & ->).
  exists (limit_to_max_emails campaign unique), template. simpl.
  split; [done|].
  split; [by eapply limit_to_max_emails_has_email|].
  split.
  - pose proof (remove_duplicates_cases prospects) as Hall.
    rewrite Hu in Hall.
    destruct (remove_duplicates_spec prospects Hall)
      as (u & Hu' & _ & Hnd & _).
    rewrite Hu in Hu'. injection Hu' as <-.
    eapply prefix_emails_NoDup; [|exact Hnd]. apply slice_to_prefix.
  - repeat (split; [done|]).
    unfold truthy in Htemplate.
    destruct (get_template_by_id db_service tid) as [t|]; [|done].
    destruct (bool_decide (t = ∅)) eqn:E; [done|].
    injection Htemplate as <-. by apply bool_decide_eq_false in E.
Qed.

Lemma scheduled_audience_has_distinct_addresses_witness :
  exists (audience : list dict) (template : dict),
    background_tasks
      (snd (send_campaign (healthy_store None) "c1" empty_world))
    = background_tasks empty_world ++ [("c1", audience, template)] /\
    Forall (has_key "email") audience /\
    NoDup (emails audience) /\
    resp_total_prospects {| resp_campaign_id := "c1";
                            resp_status := "active";
                            resp_total_prospects := 3 |} = length audience /\
    resp_status {| resp_campaign_id := "c1"; resp_status := "active";
                   resp_total_prospects := 3 |} = "active" /\
    trace (snd (send_campaign (healthy_store None) "c1" empty_world))
    = trace empty_world ++
      [UpdateCampaign "c1" "active" (Some (length audience))] /\
    template <> ∅.
Proof.
  apply (scheduled_audience_has_distinct_addresses (healthy_store None)
           "c1" empty_world).
  vm_compute. reflexivity.
Defined.

(** * Further properties of the dispatch run *)

Section Run.

Variable db_service : DbService.
Variable email_provider_service : EmailProviderService.
Variable personalize_template : string -> dict -> result string.
Variable campaign_id : string.
Variables default_provider template : dict.

Local Abbreviation iteration := (iteration_outcome db_service
  email_provider_service personalize_template campaign_id default_provider
  template).
Local Abbreviation loop := (loop_outcome db_service email_provider_service
  personalize_template campaign_id default_provider template).
Local Abbreviation run := (process_campaign_emails db_service
  email_provider_service personalize_template campaign_id).

Lemma send_arguments_inv (prospect : dict)
    (provider_id email subject content : string) :
  send_arguments personalize_template default_provider template prospect
    = Ok (provider_id, email, subject, content) ->
  exists content_pattern subject_pattern,
    template !! "content" = Some content_pattern /\
    personalize_template content_pattern prospect = Ok content /\
    template !! "subject" = Some subject_pattern /\
    personalize_template subject_pattern prospect = Ok subject /\
    default_provider !! "id" = Some provider_id /\
    prospect !! "email" = Some email.
Proof.
  unfold send_arguments, getitem. intros H.
  destruct (template !! "content") as [cp|]; [|done].
  destruct (personalize_template cp prospect) as [b|] eqn:Eb; [|done].
  destruct (template !! "subject") as [sp|]; [|done].
  destruct (personalize_template sp prospect) as [s|] eqn:Es; [|done].
  destruct (default_provider !! "id") as [pid|]; [|done].
  destruct (prospect !! "email") as [em|]; [|done].
  injection H as <- <- <- <-. by exists cp, sp.
Qed.

Lemma iteration_send_attempts (prospect : dict) (email : string)
    (c c' : Counters) (evs : list event) (out : list log_line) :
  iteration prospect email c c' evs out ->
  send_attempts evs = [] \/ send_attempts evs = [email].
Proof. destruct 1; simpl; auto. Qed.

Lemma loop_send_attempts (prospects : list dict) (c c' : Counters)
    (evs : list event) (out : list log_line) :
  loop prospects c c' evs out ->
  (Some <$> send_attempts evs) `sublist_of` emails prospects.
Proof.
  induction 1 as [|p rest email c c1 c2 evs1 evs2 out1 out2 He Hit _ IH].
  - done.
  - unfold send_attempts in *. rewrite omap_app, fmap_app.
    unfold emails. simpl. rewrite He.
    destruct (iteration_send_attempts _ _ _ _ _ _ Hit) as [H|H];
      unfold send_attempts in H; rewrite H; simpl.
    + by apply sublist_cons.
    + by apply sublist_skip.
Qed.

Lemma iteration_counters (prospect : dict) (email : string)
    (c c' : Counters) (evs : list event) (out : list log_line) :
  iteration prospect email c c' evs out ->
  sent_count c' = sent_count c + length (records_with_status "sent" evs) /\
  failed_count c'
    = failed_count c + length (records_with_status "failed" evs)
      + length (logged_errors out).
Proof.
  destruct 1; unfold records_with_status, logged_errors, failure_notice;
    simpl; try destruct success; simpl; try destruct (truthy_str error);
    simpl; split; lia.
Qed.

Lemma loop_counters (prospects : list dict) (c c' : Counters)
    (evs : list event) (out : list log_line) :
  loop prospects c c' evs out ->
  sent_count c' = sent_count c + length (records_with_status "sent" evs) /\
  failed_count c'
    = failed_count c + length (records_with_status "failed" evs)
      + length (logged_errors out).
Proof.
  induction 1 as [|p rest email c c1 c2 evs1 evs2 out1 out2 He Hit _ IH].
  - simpl. split; lia.
  - destruct (iteration_counters _ _ _ _ _ _ Hit) as [Hs Hf].
    destruct IH as [IHs IHf].
    unfold records_with_status, email_records, logged_errors in *.
    rewrite !omap_app, !filter_app, !length_app. split; lia.
Qed.

Lemma loop_nothing_sent (prospects : list dict) (c c' : Counters)
    (evs : list event) (out : list log_line) :
  (forall p, exists e,
     send_arguments personalize_template default_provider template p
       = Raise e) ->
  loop prospects c c' evs out ->
  evs = [] /\
  sent_count c' = sent_count c /\
  failed_count c' = failed_count c + length prospects /\
  length (logged_errors out) = length prospects.
Proof.
  intros Hfail.
  induction 1 as [|p rest email c c1 c2 evs1 evs2 out1 out2 He Hit _ IH].
  - simpl. repeat split; lia.
  - destruct IH as (-> & IHs & IHf & IHo).
    destruct (Hfail p) as [e Hp].
    destruct Hit; try congruence.
    simpl in *. repeat split; try done; lia.
Qed.

Lemma loop_send_origin (prospects : list dict) (c c' : Counters)
    (evs : list event) (out : list log_line)
    (provider_id to subject content : string) (res : send_result) :
  loop prospects c c' evs out ->
  (provider_id, to, subject, content, res) ∈ send_calls evs ->
  exists p, p ∈ prospects /\
    send_arguments personalize_template default_provider template p
      = Ok (provider_id, to, subject, content) /\
    res = send_email email_provider_service provider_id to subject content.
Proof.
  induction 1 as [|p rest email c c1 c2 evs1 evs2 out1 out2 He Hit _ IH];
    intros Hin.
  - by apply elem_of_nil in Hin.
  - unfold send_calls in Hin. rewrite omap_app in Hin.
    apply elem_of_app in Hin as [Hin|Hin].
    + exists p. split; [apply elem_of_cons; by left|].
      destruct Hit; simpl in Hin;
        try (by apply elem_of_nil in Hin);
        apply elem_of_cons in Hin as [[= -> -> -> -> ->]|Hin];
        try (by apply elem_of_nil in Hin); by split.
    + destruct (IH Hin) as (q & Hq & Hargs & Hres).
      exists q. split; [apply elem_of_cons; by right | done].
Qed.

Lemma iteration_record_content (prospect : dict) (email : string)
    (c c' : Counters) (evs : list event) (out : list log_line)
    (r : EmailMessage) :
  iteration prospect email c c' evs out ->
  r ∈ email_records evs ->
  em_campaign_id r = campaign_id /\
  prospect !! "id" = Some (em_prospect_id r) /\
  exists provider_id,
    send_arguments personalize_template default_provider template prospect
      = Ok (provider_id, email, em_subject r, em_content r).
Proof.
  destruct 1; simpl; intros Hin;
    try (by apply elem_of_nil in Hin);
    apply list_elem_of_singleton in Hin as ->; simpl; eauto.
Qed.

(** X11. A run makes at most one send attempt per recipient, in the
    order of the audience, and none to an address outside it: the
    addresses of the attempts are a subsequence of those of the audience.
    Over an audience without repeated address no address is tried
    twice. *)
Theorem at_most_one_send_per_recipient (prospects : list dict) (w : world) :
  truthy (get_default_provider email_provider_service)
    = Some default_provider ->
  Forall (has_key "email") prospects ->
  exists w' evs,
    run prospects template w = (Ok tt, w') /\
    trace w' = trace w ++ evs /\
    (Some <$> send_attempts evs) `sublist_of` emails prospects /\
    (NoDup (emails prospects) -> NoDup (send_attempts evs)).
Proof.
  intros Hprov Hall.
  destruct (process_campaign_emails_spec db_service email_provider_service
              personalize_template campaign_id default_provider template
              prospects w Hprov Hall)
    as (c' & w' & evs & out & Hrun & Ht & _ & _ & Hloop).
  exists w', (evs ++ [UpdateCampaign campaign_id "completed" None]).
  split; [done|]. split; [done|].
  assert (send_attempts (evs ++ [UpdateCampaign campaign_id "completed" None])
          = send_attempts evs) as ->.
  { unfold send_attempts. rewrite omap_app. simpl. by rewrite app_nil_r. }
  pose proof (loop_send_attempts _ _ _ _ _ Hloop) as Hsub.
  split; [done|]. intros Hnd.
  eapply (NoDup_fmap_1 Some). by eapply sublist_NoDup.
Qed.

(** X12. The counters of the closing line are exact in this sense: the
    number reported as sent is the number of records stored with status
    [sent], and the number reported as failed is the number of records
    stored with status [failed] plus the number of errors logged by the
    [except] block. *)
Theorem reported_counters_match_records (prospects : list dict) (w : world) :
  truthy (get_default_provider email_provider_service)
    = Some default_provider ->
  Forall (has_key "email") prospects ->
  exists w' evs out sent failed,
    run prospects template w = (Ok tt, w') /\
    trace w' = trace w ++ evs /\
    stdout w' = stdout w ++ out ++
      [CampaignCompleted campaign_id sent failed] /\
    sent = length (records_with_status "sent" evs) /\
    failed = length (records_with_status "failed" evs)
             + length (logged_errors out).
Proof.
  intros Hprov Hall.
  destruct (process_campaign_emails_spec db_service email_provider_service
              personalize_template campaign_id default_provider template
              prospects w Hprov Hall)
    as (c' & w' & evs & out & Hrun & Ht & Ho & _ & Hloop).
  exists w', (evs ++ [UpdateCampaign campaign_id "completed" None]), out,
    (sent_count c'), (failed_count c').
  split; [done|]. split; [done|]. split; [done|].
  destruct (loop_counters _ _ _ _ _ Hloop) as [Hs Hf]. simpl in Hs, Hf.
  unfold records_with_status, email_records in *.
  rewrite !omap_app. simpl. rewrite !app_nil_r. done.
Qed.

(** X13. With a default provider that has no ["id"] key, or a template
    without ["content"] or ["subject"], every recipient ends in the
    [except] block before its send: the run sends nothing, stores
    nothing, and still writes [completed], reporting no recipient as sent
    and all of them as failed. *)
Theorem nothing_is_sent_without_the_keys (prospects : list dict)
    (w : world) :
  truthy (get_default_provider email_provider_service)
    = Some default_provider ->
  Forall (has_key "email") prospects ->
  default_provider !! "id" = None \/ template !! "content" = None
    \/ template !! "subject" = None ->
  exists w' out,
    run prospects template w = (Ok tt, w') /\
    trace w' = trace w ++ [UpdateCampaign campaign_id "completed" None] /\
    stdout w' = stdout w ++ out ++
      [CampaignCompleted campaign_id 0 (length prospects)] /\
    length (logged_errors out) = length prospects.
Proof.
  intros Hprov Hall Hkeys.
  destruct (process_campaign_emails_spec db_service email_provider_service
              personalize_template campaign_id default_provider template
              prospects w Hprov Hall)
    as (c' & w' & evs & out & Hrun & Ht & Ho & _ & Hloop).
  assert (forall p, exists e,
            send_arguments personalize_template default_provider template p
              = Raise e) as Hfail.
  { intros p. unfold send_arguments, getitem.
    destruct Hkeys as [H|[H|H]]; rewrite ?H; repeat case_match; eauto. }
  destruct (loop_nothing_sent _ _ _ _ _ Hfail Hloop)
    as (-> & Hs & Hf & Hlen).
  exists w', out. simpl in *. rewrite Hs, Hf in Ho. by repeat split.
Qed.

(** X14. Each send of a run goes to the address of a recipient of the
    audience, through the default provider, with the subject and the
    content that [personalize_template] gives for that recipient from the
    patterns of the template; the run passes on nothing else. *)
Theorem sends_carry_the_personalized_template (prospects : list dict)
    (w : world) :
  truthy (get_default_provider email_provider_service)
    = Some default_provider ->
  Forall (has_key "email") prospects ->
  exists w' evs,
    run prospects template w = (Ok tt, w') /\
    trace w' = trace w ++ evs /\
    forall provider_id to subject content res,
      (provider_id, to, subject, content, res) ∈ send_calls evs ->
      exists p content_pattern subject_pattern,
        p ∈ prospects /\
        p !! "email" = Some to /\
        default_provider !! "id" = Some provider_id /\
        template !! "subject" = Some subject_pattern /\
        personalize_template subject_pattern p = Ok subject /\
        template !! "content" = Some content_pattern /\
        personalize_template content_pattern p = Ok content /\
        res = send_email email_provider_service provider_id to subject
                content.
Proof.
  intros Hprov Hall.
  destruct (process_campaign_emails_spec db_service email_provider_service
              personalize_template campaign_id default_provider template
              prospects w Hprov Hall)
    as (c' & w' & evs & out & Hrun & Ht & _ & _ & Hloop).
  exists w', (evs ++ [UpdateCampaign campaign_id "completed" None]).
  split; [done|]. split; [done|].
  intros pid to s b res Hin.
  unfold send_calls in Hin. rewrite omap_app in Hin. simpl in Hin.
  rewrite app_nil_r in Hin.
  destruct (loop_send_origin _ _ _ _ _ _ _ _ _ _ Hloop Hin)
    as (p & Hp & Hargs & Hres).
  destruct (send_arguments_inv _ _ _ _ _ Hargs)
    as (cp & sp & Hc & Hpc & Hs & Hps & Hid & He).
  by exists p, cp, sp.
Qed.

(** X15. Each outcome record of a run carries the identifier of the
    campaign of the run, the identifier of a recipient of the audience,
    and the subject and content rendered for that recipient, which are
    also those of a send attempt of the run to that recipient. *)
Theorem records_carry_what_was_sent (prospects : list dict) (w : world) :
  truthy (get_default_provider email_provider_service)
    = Some default_provider ->
  Forall (has_key "email") prospects ->
  exists w' evs,
    run prospects template w = (Ok tt, w') /\
    trace w' = trace w ++ evs /\
    forall r, r ∈ email_records evs ->
      em_campaign_id r = campaign_id /\
      exists p email content_pattern subject_pattern,
        p ∈ prospects /\
        p !! "id" = Some (em_prospect_id r) /\
        p !! "email" = Some email /\
        template !! "subject" = Some subject_pattern /\
        personalize_template subject_pattern p = Ok (em_subject r) /\
        template !! "content" = Some content_pattern /\
        personalize_template content_pattern p = Ok (em_content r) /\
        email ∈ send_attempts evs.
Proof.
  intros Hprov Hall.
  destruct (process_campaign_emails_spec db_service email_provider_service
              personalize_template campaign_id default_provider template
              prospects w Hprov Hall)
    as (c' & w' & evs & out & Hrun & Ht & _ & _ & Hloop).
  exists w', (evs ++ [UpdateCampaign campaign_id "completed" None]).
  split; [done|]. split; [done|].
  intros r Hr. unfold email_records in Hr. rewrite omap_app in Hr.
  simpl in Hr. rewrite app_nil_r in Hr.
  revert Hr. clear Hrun Ht Hall. induction Hloop
    as [|p rest email c c1 c2 evs1 evs2 out1 out2 He Hit Hl IH]; intros Hr.
  - by apply elem_of_nil in Hr.
  - unfold email_records in Hr. rewrite omap_app in Hr.
    assert (forall x, x ∈ send_attempts evs1 \/
              x ∈ send_attempts (evs2 ++
                    [UpdateCampaign campaign_id "completed" None]) ->
            x ∈ send_attempts ((evs1 ++ evs2) ++
                    [UpdateCampaign campaign_id "completed" None]))
      as Hmerge.
    { intros x. unfold send_attempts. rewrite !omap_app.
      rewrite !elem_of_app. tauto. }
    apply elem_of_app in Hr as [Hr|Hr].
    + destruct (iteration_record_content _ _ _ _ _ _ _ Hit Hr)
        as (Hcid & Hid & pid & Hargs).
      split; [done|].
      destruct (send_arguments_inv _ _ _ _ _ Hargs)
        as (cp & sp & Hc & Hpc & Hs & Hps & _ & _).
      exists p, email, cp, sp.
      split; [apply elem_of_cons; by left|].
      repeat (split; [done|]).
      apply Hmerge. left.
      destruct Hit; simpl in Hr; try (by apply elem_of_nil in Hr);
        simpl; apply elem_of_cons; by left.
    + destruct (IH Hr) as (Hcid & q & em & cp & sp & Hq & Hrest).
      split; [done|]. exists q, em, cp, sp.
      split; [apply elem_of_cons; by right|].
      destruct Hrest as (? & ? & ? & ? & ? & ? & Hsent).
      repeat (split; [done|]). apply Hmerge. by right.
Qed.

End Run.

Lemma at_most_one_send_per_recipient_witness :
  exists w' evs,
    process_campaign_emails (healthy_store None)
      (provider_service (Some smtp_provider) (smtp_timeout_for "b@x"))
      verbatim "c1" three_recipients welcome_template empty_world
    = (Ok tt, w') /\
    trace w' = trace empty_world ++ evs /\
    (Some <$> send_attempts evs) `sublist_of` emails three_recipients /\
    (NoDup (emails three_recipients) -> NoDup (send_attempts evs)).
Proof.
  apply (at_most_one_send_per_recipient (healthy_store None)
           (provider_service (Some smtp_provider) (smtp_timeout_for "b@x"))
           verbatim "c1" smtp_provider welcome_template three_recipients
           empty_world).
  - reflexivity.
  - repeat constructor; by eexists.
Defined.

Lemma reported_counters_match_records_witness :
  exists w' evs out sent failed,
    process_campaign_emails (healthy_store None)
      (provider_service (Some smtp_provider) (smtp_timeout_for "b@x"))
      verbatim "c1" three_recipients welcome_template empty_world
    = (Ok tt, w') /\
    trace w' = trace empty_world ++ evs /\
    stdout w' = stdout empty_world ++ out ++
      [CampaignCompleted "c1" sent failed] /\
    sent = length (records_with_status "sent" evs) /\
    failed = length (records_with_status "failed" evs)
             + length (logged_errors out).
Proof.
  apply (reported_counters_match_records (healthy_store None)
           (provider_service (Some smtp_provider) (smtp_timeout_for "b@x"))
           verbatim "c1" smtp_provider welcome_template three_recipients
           empty_world).
  - reflexivity.
  - repeat constructor; by eexists.
Defined.

Lemma nothing_is_sent_without_the_keys_witness :
  exists w' out,
    process_campaign_emails (healthy_store None)
      (provider_service (Some (<["name" := "smtp"]> ∅)) delivers)
      verbatim "c1" three_recipients welcome_template empty_world
    = (Ok tt, w') /\
    trace w' = trace empty_world ++ [UpdateCampaign "c1" "completed" None] /\
    stdout w' = stdout empty_world ++ out ++
      [CampaignCompleted "c1" 0 (length three_recipients)] /\
    length (logged_errors out) = length three_recipients.
Proof.
  apply (nothing_is_sent_without_the_keys (healthy_store None)
           (provider_service (Some (<["name" := "smtp"]> ∅)) delivers)
           verbatim "c1" (<["name" := "smtp"]> ∅) welcome_template
           three_recipients empty_world).
  - reflexivity.
  - repeat constructor; by eexists.
  - left. reflexivity.
Defined.

Lemma sends_carry_the_personalized_template_witness :
  exists w' evs,
    process_campaign_emails (healthy_store None)
      (provider_service (Some smtp_provider) delivers)
      verbatim "c1" three_recipients welcome_template empty_world
    = (Ok tt, w') /\
    trace w' = trace empty_world ++ evs /\
    forall provider_id to subject content res,
      (provider_id, to, subject, content, res) ∈ send_calls evs ->
      exists p content_pattern subject_pattern,
        p ∈ three_recipients /\
        p !! "email" = Some to /\
        smtp_provider !! "id" = Some provider_id /\
        welcome_template !! "subject" = Some subject_pattern /\
        verbatim subject_pattern p = Ok subject /\
        welcome_template !! "content" = Some content_pattern /\
        verbatim content_pattern p = Ok content /\
        res = send_email (provider_service (Some smtp_provider) delivers)
                provider_id to subject content.
Proof.
  apply (sends_carry_the_personalized_template (healthy_store None)
           (provider_service (Some smtp_provider) delivers)
           verbatim "c1" smtp_provider welcome_template three_recipients
           empty_world).
  - reflexivity.
  - repeat constructor; by eexists.
Defined.

Lemma records_carry_what_was_sent_witness :
  exists w' evs,
    process_campaign_emails (healthy_store None)
      (provider_service (Some smtp_provider) delivers)
      verbatim "c1" three_recipients welcome_template empty_world
    = (Ok tt, w') /\
    trace w' = trace empty_world ++ evs /\
    forall r, r ∈ email_records evs ->
      em_campaign_id r = "c1" /\
      exists p email content_pattern subject_pattern,
        p ∈ three_recipients /\
        p !! "id" = Some (em_prospect_id r) /\
        p !! "email" = Some email /\
        welcome_template !! "subject" = Some subject_pattern /\
        verbatim subject_pattern p = Ok (em_subject r) /\
        welcome_template !! "content" = Some content_pattern /\
        verbatim content_pattern p = Ok (em_content r) /\
        email ∈ send_attempts evs.
Proof.
  apply (records_carry_what_was_sent (healthy_store None)
           (provider_service (Some smtp_provider) delivers)
           verbatim "c1" smtp_provider welcome_template three_recipients
           empty_world).
  - reflexivity.
  - repeat constructor; by eexists.
Defined.

Lemma counters_add_up_when_contact_update_succeeds_witness :
  exists w' out sent failed,
    process_campaign_emails (healthy_store None)
      (provider_service (Some smtp_provider) transport_down)
      verbatim "c1" three_recipients welcome_template empty_world
    = (Ok tt, w') /\
    stdout w' = stdout empty_world ++ out ++
      [CampaignCompleted "c1" sent failed] /\
    sent + failed = length three_recipients.
Proof.
  apply (counters_add_up_when_contact_update_succeeds (healthy_store None)
           (provider_service (Some smtp_provider) transport_down)
           verbatim "c1" three_recipients smtp_provider welcome_template
           empty_world).
  - reflexivity.
  - repeat constructor; by eexists.
  - reflexivity.
Defined.

(** * Further properties of the trigger followed by its run *)

(** What an accepted trigger and its run do together. *)
Lemma post_campaign_send_accepted (db_service : DbService)
    (email_provider_service : EmailProviderService)
    (personalize_template : string -> dict -> result string)
    (campaign_id : string) (w w1 : world) (response : SendResponse) :
  send_campaign db_service campaign_id (no_tasks w) = (Ok response, w1) ->
  exists campaign unique w' evs,
    get_campaign_by_id db_service campaign_id = Some campaign /\
    NoDup (emails unique) /\
    resp_total_prospects response
      = length (limit_to_max_emails campaign unique) /\
    post_campaign_send db_service email_provider_service
      personalize_template campaign_id w = (Ok response, w') /\
    trace w' = trace w ++
      UpdateCampaign campaign_id "active"
        (Some (resp_total_prospects response)) :: evs /\
    (Some <$> send_attempts evs)
      `sublist_of` emails (limit_to_max_emails campaign unique) /\
    length (email_records evs)
      <= length (limit_to_max_emails campaign unique).
Proof.
  intros Hsend. unfold post_campaign_send. rewrite Hsend.
  apply send_campaign_Ok in Hsend
    as (campaign & tid & template & prospects & unique
        & Hc & _ & _ & _ & Hu & -> & ->).
  pose proof (limit_to_max_emails_has_email campaign _ _ Hu) as Hall.
  assert (NoDup (emails unique)) as Hnd.
  { pose proof (remove_duplicates_cases prospects) as Hp. rewrite Hu in Hp.
    destruct (remove_duplicates_spec prospects Hp) as (u & Hu' & _ & H & _).
    rewrite Hu in Hu'. by injection Hu' as <-. }
  exists campaign, unique. simpl. unfold bind.
  destruct (truthy (get_default_provider email_provider_service))
    as [default_provider|] eqn:Hprov.
  - match goal with
    | |- context [process_campaign_emails _ _ _ _ _ _ ?w0] =>
        destruct (process_campaign_emails_spec db_service
                    email_provider_service personalize_template
                    campaign_id default_provider template _ w0 Hprov Hall)
          as (c' & w' & evs & out & Hrun & Ht & _ & _ & Hloop)
    end.
    rewrite Hrun. simpl in *.
    exists w', (evs ++ [UpdateCampaign campaign_id "completed" None]).
    split; [done|]. split; [done|]. split; [done|]. split; [done|].
    split; [by rewrite Ht, <- !app_assoc|].
    unfold send_attempts, email_records. rewrite !omap_app. simpl.
    rewrite !app_nil_r. split.
    + by eapply loop_send_attempts.
    + by eapply loop_records_le.
  - rewrite (process_campaign_emails_no_provider _ _ _ _ _ _ _ Hprov).
    simpl. eexists _, []. split; [done|]. split; [done|]. split; [done|].
    split; [reflexivity|]. simpl. split; [done|].
    split; [apply sublist_nil_l | lia].
Qed.

(** X16. The loop over an audience that an accepted trigger has
    scheduled never raises, whatever rendering, the transport and the two
    writes of the loop do and whatever the provider is: every scheduled
    prospect has the address that the [except] block prints, so each
    pass ends in the update of the timestamp or in the [except] block,
    and the loop goes on to the end of the audience. *)
Theorem scheduled_loop_never_raises (db_service : DbService)
    (campaign_id : string) (w w1 : world) (response : SendResponse) :
  send_campaign db_service campaign_id w = (Ok response, w1) ->
  exists (audience : list dict) (template : dict),
    background_tasks w1 = background_tasks w ++
      [(campaign_id, audience, template)] /\
    forall (store : DbService)
      (email_provider_service : EmailProviderService)
      (personalize_template : string -> dict -> result string)
      (default_provider : dict) (c : Counters) (w2 : world),
    exists c' w3 evs out,
      for_prospects store email_provider_service personalize_template
        campaign_id default_provider template audience (c, w2)
        = (Ok tt, (c', w3)) /\
      trace w3 = trace w2 ++ evs /\
      stdout w3 = stdout w2 ++ out /\
      length (logged_errors out) + length (last_contact_updates evs)
        = length audience.
Proof.
  intros Hsend.
  apply send_campaign_Ok in Hsend
    as (campaign & tid & template & prospects & unique
        & _ & _ & _ & _ & Hu & _ & ->).
  pose proof (limit_to_max_emails_has_email campaign _ _ Hu) as Hall.
  exists (limit_to_max_emails campaign unique), template.
  split; [done|].
  intros store email_provider_service personalize_template default_provider
    c w2.
  destruct (for_prospects_spec store email_provider_service
              personalize_template campaign_id default_provider template
              _ Hall c w2)
    as (c' & w3 & evs & out & Hrun & Ht & Ho & _ & Hloop).
  exists c', w3, evs, out. split; [done|]. split; [done|]. split; [done|].
  by eapply loop_every_prospect_handled.
Qed.

Lemma scheduled_loop_never_raises_witness :
  exists (audience : list dict) (template : dict),
    background_tasks
      (snd (send_campaign (healthy_store None) "c1" empty_world))
    = background_tasks empty_world ++ [("c1", audience, template)] /\
    forall (store : DbService)
      (email_provider_service : EmailProviderService)
      (personalize_template : string -> dict -> result string)
      (default_provider : dict) (c : Counters) (w2 : world),
    exists c' w3 evs out,
      for_prospects store email_provider_service personalize_template
        "c1" default_provider template audience (c, w2)
        = (Ok tt, (c', w3)) /\
      trace w3 = trace w2 ++ evs /\
      stdout w3 = stdout w2 ++ out /\
      length (logged_errors out) + length (last_contact_updates evs)
        = length audience.
Proof.
  apply (scheduled_loop_never_raises (healthy_store None) "c1" empty_world
           (snd (send_campaign (healthy_store None) "c1" empty_world))
           {| resp_campaign_id := "c1"; resp_status := "active";
              resp_total_prospects := 3 |}).
  vm_compute. reflexivity.
Defined.

(** X17. A request never sends more than the cap: with a cap
    [c >= 0] (100 when the campaign has no [max_emails]) its run makes at
    most [c] send attempts, no two to the same address, and stores at
    most [c] outcome records. *)
Theorem sends_stay_within_the_cap (db_service : DbService)
    (email_provider_service : EmailProviderService)
    (personalize_template : string -> dict -> result string)
    (campaign_id : string) (campaign : Campaign) (w w' : world)
    (response : SendResponse) :
  get_campaign_by_id db_service campaign_id = Some campaign ->
  (0 <= default 100 (max_emails campaign))%Z ->
  post_campaign_send db_service email_provider_service personalize_template
    campaign_id w = (Ok response, w') ->
  exists evs,
    trace w' = trace w ++ evs /\
    (Z.of_nat (length (send_attempts evs))
       <= default 100 (max_emails campaign))%Z /\
    NoDup (send_attempts evs) /\
    (Z.of_nat (length (email_records evs))
       <= default 100 (max_emails campaign))%Z /\
    (Z.of_nat (resp_total_prospects response)
       <= default 100 (max_emails campaign))%Z.
Proof.
  intros Hcampaign Hcap Hpost.
  destruct (send_campaign db_service campaign_id (no_tasks w))
    as [[response'|e] w1] eqn:Hsend.
  - destruct (post_campaign_send_accepted db_service email_provider_service
                personalize_template campaign_id w w1 response' Hsend)
      as (campaign' & unique & w'' & evs & Hc & Hnd & Htotal & Hpost'
          & Ht & Hsub & Hrec).
    rewrite Hpost in Hpost'. injection Hpost' as <- <-.
    rewrite Hcampaign in Hc. injection Hc as <-.
    assert (Z.of_nat (length (limit_to_max_emails campaign unique))
            <= default 100 (max_emails campaign))%Z as Hlen.
    { unfold limit_to_max_emails. rewrite slice_to_nonneg by done.
      rewrite length_take. lia. }
    exists (UpdateCampaign campaign_id "active"
              (Some (resp_total_prospects response)) :: evs).
    split; [done|]. simpl.
    split.
    { apply sublist_length in Hsub. unfold emails in Hsub.
      rewrite !length_fmap in Hsub. lia. }
    split.
    { apply (NoDup_fmap_1 Some). eapply sublist_NoDup; [|exact Hsub].
      eapply prefix_emails_NoDup; [apply slice_to_prefix | exact Hnd]. }
    split; lia.
  - unfold post_campaign_send in Hpost. by rewrite Hsend in Hpost.
Qed.

Lemma sends_stay_within_the_cap_witness :
  exists evs,
    trace (snd (post_campaign_send (healthy_store (Some 2%Z))
                  (provider_service (Some smtp_provider) delivers)
                  verbatim "c1" empty_world))
    = trace empty_world ++ evs /\
    (Z.of_nat (length (send_attempts evs))
       <= default 100 (max_emails (campaign_AB (Some 2%Z))))%Z /\
    NoDup (send_attempts evs) /\
    (Z.of_nat (length (email_records evs))
       <= default 100 (max_emails (campaign_AB (Some 2%Z))))%Z /\
    (Z.of_nat (resp_total_prospects
                 {| resp_campaign_id := "c1"; resp_status := "active";
                    resp_total_prospects := 2 |})
       <= default 100 (max_emails (campaign_AB (Some 2%Z))))%Z.
Proof.
  apply (sends_stay_within_the_cap (healthy_store (Some 2%Z))
           (provider_service (Some smtp_provider) delivers) verbatim "c1"
           (campaign_AB (Some 2%Z)) empty_world).
  - reflexivity.
  - vm_compute. discriminate.
  - vm_compute. reflexivity.
Defined.

Lemma remove_duplicates_raises_on_missing_email_witness :
  KeyError "email" = KeyError "email" /\
  exists p, p ∈ [prospect_of "1" "a@x"; <["id" := "2"]> ∅] /\
    p !! "email" = None.
Proof.
  apply (proj2 (remove_duplicates_raises_on_missing_email
                  [prospect_of "1" "a@x"; <["id" := "2"]> ∅])).
  vm_compute. reflexivity.
Defined.
